(** * modules/postgres/charts.go: chart catalogue and per-database charts

    The file declares the chart definitions of the postgres collector
    and three functions that instantiate, register and retire the
    per-database charts.  Charts and dimensions are reached through
    pointers ([module.Charts] is a slice of [*Chart], [module.Dims] a
    slice of [*Dim]) and the functions mutate them in place, so the
    development keeps an explicit store of chart and dimension cells
    and threads it through a small state monad. *)

From Stdlib Require Import ZArith Lia Ascii String.
From stdpp Require Import base option list strings gmap.

Local Open Scope string_scope.
Local Open Scope list_scope.

(** ** Strings (package [strings] and [fmt] of the Go library) *)

(** A Go string is a sequence of bytes, like Rocq's [string]. *)

(** [strings.HasPrefix(s, prefix)]. *)
Definition HasPrefix (s prefix : string) : bool := String.prefix prefix s.

(** The operand list printed after the format is exhausted
    ([%!(EXTRA string=a, string=b)]). *)
Fixpoint extraOperands (a : list string) : string :=
  match a with
  | [] => ""
  | [x] => "string=" +:+ x
  | x :: a' => "string=" +:+ x +:+ ", " +:+ extraOperands a'
  end.

Definition extraString (a : list string) : string :=
  match a with
  | [] => ""
  | _ => "%!(EXTRA " +:+ extraOperands a +:+ ")"
  end.

(** A string operand printed under a verb: [%s] and [%v] print it as
    it is, any other verb letter is reported as [%!c(string=x)]. *)
Definition fmtString (x : string) (verb : ascii) : string :=
  if bool_decide (verb = "s"%char) || bool_decide (verb = "v"%char) then x
  else "%!" +:+ String verb ("(string=" +:+ x +:+ ")").

(** [doPrintf] of package [fmt] for string operands: text is copied up
    to the next [%]; [%%] prints a percent sign and takes no operand; a
    verb takes the next operand, or prints [%!c(MISSING)] when none is
    left; a [%] that ends the format prints [%!(NOVERB)]; operands left
    over are listed at the end.

    The model covers formats whose directives are a [%] directly
    followed by the verb (see [plainFormat]); flags, width, precision,
    argument indexes and the verbs [q], [x], [X], [T], [w] are not
    interpreted.  No format of charts.go uses them. *)
Fixpoint doPrintf (format : string) (a : list string) : string :=
  match format with
  | EmptyString => extraString a
  | String c rest =>
      if bool_decide (c = "%"%char) then
        match rest with
        | EmptyString => "%!(NOVERB)" +:+ extraString a
        | String verb rest' =>
            if bool_decide (verb = "%"%char) then String "%" (doPrintf rest' a)
            else match a with
                 | [] => "%!" +:+ String verb ("(MISSING)" +:+ doPrintf rest' [])
                 | x :: a' => fmtString x verb +:+ doPrintf rest' a'
                 end
        end
      else String c (doPrintf rest a)
  end.

(** [fmt.Sprintf(format, a...)]. *)
Definition Sprintf (format : string) (a : list string) : string :=
  doPrintf format a.

(** The verbs of a format, in order: the character after each [%]
    that [doPrintf] reads as a directive ([%%] included). *)
Fixpoint verbs (format : string) : list ascii :=
  match format with
  | EmptyString => []
  | String c rest =>
      if bool_decide (c = "%"%char) then
        match rest with
        | EmptyString => []
        | String verb rest' => verb :: verbs rest'
        end
      else verbs rest
  end.

(** Formats inside the modelled fragment: every [%] is followed by
    [%], [s], [v] or a letter that is no verb for strings. *)
Definition plainVerb (verb : ascii) : bool :=
  bool_decide (verb ∈ ["%"; "s"; "v"; "d"; "t"; "b"; "c"; "o"; "e"; "f"; "g"]%char).

Definition plainFormat (format : string) : bool :=
  forallb plainVerb (verbs format).

(** ** Runes (packages [unicode/utf8] and [unicode] of the Go library) *)

(** [utf8.RuneError], the rune that stands for an invalid encoding. *)
Definition RuneError : N := 0xFFFD.

(** The table [first] of package [utf8] for a byte that is not ASCII:
    the length of the encoding it starts and the range accepted for the
    second byte; [None] for a byte that starts no encoding. *)
Definition first (b0 : N) : option (nat * N * N) :=
  if (0xC2 <=? b0)%N && (b0 <=? 0xDF)%N then Some (2, 0x80%N, 0xBF%N)
  else if (b0 =? 0xE0)%N then Some (3, 0xA0%N, 0xBF%N)
  else if (0xE1 <=? b0)%N && (b0 <=? 0xEC)%N then Some (3, 0x80%N, 0xBF%N)
  else if (b0 =? 0xED)%N then Some (3, 0x80%N, 0x9F%N)
  else if (0xEE <=? b0)%N && (b0 <=? 0xEF)%N then Some (3, 0x80%N, 0xBF%N)
  else if (b0 =? 0xF0)%N then Some (4, 0x90%N, 0xBF%N)
  else if (0xF1 <=? b0)%N && (b0 <=? 0xF3)%N then Some (4, 0x80%N, 0xBF%N)
  else if (b0 =? 0xF4)%N then Some (4, 0x80%N, 0x8F%N)
  else None.

(** The first byte of [s] when there is one and it lies in [lo..hi]. *)
Definition nextIn (lo hi : N) (s : string) : option N :=
  match s with
  | EmptyString => None
  | String c _ =>
      let b := N_of_ascii c in
      if (lo <=? b)%N && (b <=? hi)%N then Some b else None
  end.

Definition tail (s : string) : string :=
  match s with
  | EmptyString => EmptyString
  | String _ rest => rest
  end.

(** [utf8.DecodeRuneInString(s)]: the first rune of [s] and the number
    of bytes of its encoding; an invalid or incomplete encoding gives
    [RuneError] and one byte. *)
Definition DecodeRuneInString (s : string) : N * nat :=
  match s with
  | EmptyString => (RuneError, 0)
  | String c0 r1 =>
      let b0 := N_of_ascii c0 in
      if (b0 <? 0x80)%N then (b0, 1)
      else
        match first b0 with
        | None => (RuneError, 1)
        | Some (sz, lo, hi) =>
            match nextIn lo hi r1 with
            | None => (RuneError, 1)
            | Some b1 =>
                if (sz <=? 2)%nat then
                  (N.lor (N.shiftl (N.land b0 0x1F) 6) (N.land b1 0x3F), 2)
                else
                  match nextIn 0x80 0xBF (tail r1) with
                  | None => (RuneError, 1)
                  | Some b2 =>
                      if (sz <=? 3)%nat then
                        (N.lor (N.shiftl (N.land b0 0x0F) 12)
                           (N.lor (N.shiftl (N.land b1 0x3F) 6)
                                  (N.land b2 0x3F)), 3)
                      else
                        match nextIn 0x80 0xBF (tail (tail r1)) with
                        | None => (RuneError, 1)
                        | Some b3 =>
                            (N.lor (N.shiftl (N.land b0 0x07) 18)
                               (N.lor (N.shiftl (N.land b1 0x3F) 12)
                                  (N.lor (N.shiftl (N.land b2 0x3F) 6)
                                         (N.land b3 0x3F))), 4)
                        end
                  end
            end
        end
  end.

(** The runes that [for _, r := range s] visits: a rune is decoded at
    the current byte, and the other bytes of its encoding ([skip] of
    them are still to pass) are stepped over. *)
Fixpoint rangeRunes (skip : nat) (s : string) : list N :=
  match s with
  | EmptyString => []
  | String _ rest =>
      match skip with
      | S k => rangeRunes k rest
      | O =>
          let (r, width) := DecodeRuneInString s in
          r :: rangeRunes (width - 1) rest
      end
  end.

(** [unicode.IsSpace(r)]: the Latin-1 spaces and the other code points
    with the property White_Space. *)
Definition IsSpace (r : N) : bool :=
  bool_decide (r ∈ [0x09; 0x0A; 0x0B; 0x0C; 0x0D; 0x20; 0x85; 0xA0; 0x1680;
                    0x2028; 0x2029; 0x202F; 0x205F; 0x3000]%N)
  || ((0x2000 <=? r)%N && (r <=? 0x200A)%N).

(** ** Package [module]: charts, dimensions, the chart collection

    charts.go imports package agent/module of the same repository for
    the types [Chart], [Dim], [Label], [Charts], [Dims] and their
    methods.  Its declarations are written here with the fields and
    the values that charts.go uses; the zero value of a field left out
    of a composite literal is explicit. *)

(** Modelled from the spec: [module.ChartType], the "render type" of a
    chart, declared in agent/module.  charts.go uses [module.Stacked]
    and [module.Area]; [TypeUnset] is the zero value. *)
Inductive ChartType := TypeUnset | Area | Stacked.

(** Modelled from the spec: [module.DimAlgo], the "algorithm" of a
    dimension, declared in agent/module.  charts.go uses
    [module.Incremental]; [AlgoUnset] is the zero value. *)
Inductive DimAlgo := AlgoUnset | Incremental.

(** Modelled from the spec: [module.Label], declared in agent/module,
    with the two fields that [newDatabaseCharts] sets. *)
Record Label := { Key : string; Value : string }.

Module Dim.
(** Modelled from the spec: [module.Dim], declared in agent/module; a
    dimension has "an id/name/algorithm". *)
Record t := { ID : string; Name : string; Algo : DimAlgo }.
Definition set_ID (id : string) (d : t) : t :=
  {| ID := id; Name := Name d; Algo := Algo d |}.
End Dim.

(** Pointers are indexes into the store. *)
Abbreviation loc := nat.

(** Modelled from the spec: [module.Chart], declared in agent/module; a
    chart has "id, title, units, family, context, priority, render
    type, ordered list of dimensions", the labels that
    [newDatabaseCharts] attaches, and the marks behind [MarkRemove] and
    [MarkNotCreated].  The record is over the representation [D] of the
    dimension list:
    - [Chart] has [Dims : list loc], the slice of [*Dim] of the Go
      struct;
    - [ChartLit] has the dimensions in line, as a composite literal
      writes them and as a reader following the pointers sees them. *)
Record Chart_ (D : Type) := mkChart {
  ID : string;
  Title : string;
  Units : string;
  Fam : string;
  Ctx : string;
  Type_ : ChartType;
  Priority : Z;
  Labels : list Label;
  Dims : list D;
  remove : bool;
  created : bool
}.
Arguments mkChart {D}.
Arguments ID {D}.
Arguments Title {D}.
Arguments Units {D}.
Arguments Fam {D}.
Arguments Ctx {D}.
Arguments Type_ {D}.
Arguments Priority {D}.
Arguments Labels {D}.
Arguments Dims {D}.
Arguments remove {D}.
Arguments created {D}.

Abbreviation Chart := (Chart_ loc).
Abbreviation ChartLit := (Chart_ Dim.t).

#[global] Instance ChartType_eq_dec : EqDecision ChartType.
Proof. solve_decision. Defined.
#[global] Instance DimAlgo_eq_dec : EqDecision DimAlgo.
Proof. solve_decision. Defined.
#[global] Instance Label_eq_dec : EqDecision Label.
Proof. solve_decision. Defined.
#[global] Instance Dim_eq_dec : EqDecision Dim.t.
Proof. solve_decision. Defined.
#[global] Instance Chart_eq_dec D `{EqDecision D} : EqDecision (Chart_ D).
Proof. solve_decision. Defined.

(** Field assignments. *)
Definition set_ID {D} (id : string) (c : Chart_ D) : Chart_ D :=
  mkChart id (Title c) (Units c) (Fam c) (Ctx c) (Type_ c) (Priority c)
          (Labels c) (Dims c) (remove c) (created c).
Definition set_Labels {D} (ls : list Label) (c : Chart_ D) : Chart_ D :=
  mkChart (ID c) (Title c) (Units c) (Fam c) (Ctx c) (Type_ c) (Priority c)
          ls (Dims c) (remove c) (created c).
Definition set_Dims {D E} (ds : list E) (c : Chart_ D) : Chart_ E :=
  mkChart (ID c) (Title c) (Units c) (Fam c) (Ctx c) (Type_ c) (Priority c)
          (Labels c) ds (remove c) (created c).
Definition set_remove {D} (b : bool) (c : Chart_ D) : Chart_ D :=
  mkChart (ID c) (Title c) (Units c) (Fam c) (Ctx c) (Type_ c) (Priority c)
          (Labels c) (Dims c) b (created c).
Definition set_created {D} (b : bool) (c : Chart_ D) : Chart_ D :=
  mkChart (ID c) (Title c) (Units c) (Fam c) (Ctx c) (Type_ c) (Priority c)
          (Labels c) (Dims c) (remove c) b.

(** The composite literal [module.Chart{ID: .., Title: .., ..}]:
    [Labels] is nil and the marks are false. *)
Definition module_Chart (id title units fam ctx : string) (prio : Z)
    (type : ChartType) (dims : list Dim.t) : ChartLit :=
  mkChart id title units fam ctx type prio [] dims false false.

(** Modelled from the spec: the errors of agent/module on adding a
    chart, on which the spec is silent.  [checkError] is what the check
    of one chart reports (an empty ID, title or units; a white-space
    rune in the chart ID or in a dimension ID; an empty or repeated
    dimension ID); [error] is what [Charts.Add] returns: the check
    error of a chart, or that the ID of the chart is in the collection
    already. *)
Inductive checkError :=
| errEmptyID
| errEmptyTitle
| errEmptyUnits
| errUnacceptableSymbol (r : Z)
| errEmptyDimID
| errUnacceptableDimSymbol (id : string) (r : Z)
| errDuplicateDim (id : string).

Inductive error :=
| errAddingChart (id : string) (e : checkError)
| errAlreadyInCharts (id : string).

(** ** The store and the monad *)

(** [chartsH] and [dimsH] hold the chart and dimension cells; [p_charts]
    is the collection behind [p.Charts()], [p_log] the warnings logged
    through [p.Warning]. *)
Record State := mkState {
  chartsH : list Chart;
  dimsH : list Dim.t;
  p_charts : list loc;
  p_log : list error
}.

Inductive Res (A : Type) :=
| Ok (a : A) (s : State)
| Panic.
Arguments Ok {A}.
Arguments Panic {A}.

Definition M (A : Type) := State → Res A.

Definition ret {A} (a : A) : M A := λ s, Ok a s.
Definition bind {A B} (m : M A) (k : A → M B) : M B :=
  λ s, match m s with Ok a s' => k a s' | Panic => Panic end.

Notation "'let*' x ':=' m 'in' k" := (bind m (λ x, k))
  (at level 10, x name, m at level 100, k at level 200).
Notation "m ';;;' k" := (bind m (λ _, k))
  (at level 100, k at level 200, right associativity).

(** [&v]: a new cell at the end of the store. *)
Definition newDim (d : Dim.t) : M loc := λ s,
  Ok (length (dimsH s))
     (mkState (chartsH s) (dimsH s ++ [d]) (p_charts s) (p_log s)).
Definition newChart (c : Chart) : M loc := λ s,
  Ok (length (chartsH s))
     (mkState (chartsH s ++ [c]) (dimsH s) (p_charts s) (p_log s)).

(** [*p] and [*p = v]; a pointer to no cell (nil) panics. *)
Definition loadDim (p : loc) : M Dim.t := λ s,
  match dimsH s !! p with Some d => Ok d s | None => Panic end.
Definition storeDim (p : loc) (d : Dim.t) : M unit := λ s,
  match dimsH s !! p with
  | Some _ => Ok tt (mkState (chartsH s) (<[p:=d]> (dimsH s)) (p_charts s) (p_log s))
  | None => Panic
  end.
Definition loadChart (p : loc) : M Chart := λ s,
  match chartsH s !! p with Some c => Ok c s | None => Panic end.
Definition storeChart (p : loc) (c : Chart) : M unit := λ s,
  match chartsH s !! p with
  | Some _ => Ok tt (mkState (<[p:=c]> (chartsH s)) (dimsH s) (p_charts s) (p_log s))
  | None => Panic
  end.

(** [p.field = e]: read the cell, assign the field, write it back. *)
Definition modifyChart (p : loc) (f : Chart → Chart) : M unit :=
  let* c := loadChart p in storeChart p (f c).
Definition modifyDim (p : loc) (f : Dim.t → Dim.t) : M unit :=
  let* d := loadDim p in storeDim p (f d).

(** [*p.Charts()], and appending to it. *)
Definition getCharts : M (list loc) := λ s, Ok (p_charts s) s.
Definition appendChart (c : loc) : M unit := λ s,
  Ok tt (mkState (chartsH s) (dimsH s) (p_charts s ++ [c]) (p_log s)).

(** [p.Warning(err)]. *)
Definition Warning (e : error) : M unit := λ s,
  Ok tt (mkState (chartsH s) (dimsH s) (p_charts s) (p_log s ++ [e])).

(** [for _, x := range l { body }]. *)
Fixpoint forEach {A} (l : list A) (body : A → M unit) : M unit :=
  match l with
  | [] => ret tt
  | x :: l' => body x ;;; forEach l' body
  end.

(** A slice built by appending [f x] for each [x] of [l]. *)
Fixpoint collect {A B} (f : A → M B) (l : list A) : M (list B) :=
  match l with
  | [] => ret []
  | x :: l' => let* y := f x in let* ys := collect f l' in ret (y :: ys)
  end.

(** *** Methods of [Dim], [Chart] and [Charts] *)

(** Modelled from the spec: the copy of a dimension, defined in
    agent/module.  The spec has the charts "cloned from a template": the
    copy is a cell of its own with the contents of the original. *)
Definition Dim_copy (d : loc) : M loc :=
  let* v := loadDim d in newDim v.

(** Modelled from the spec: [Chart.Copy], defined in agent/module.  The
    clone of a chart is a chart cell of its own whose dimensions are
    copies, in order; the other fields are the original's. *)
Definition Chart_Copy (c : Chart) : M loc :=
  let* dims := collect Dim_copy (Dims c) in
  newChart (set_Dims dims c).

(** Modelled from the spec: [Charts.Copy], defined in agent/module: the
    slice of the clones of the charts, in order. *)
Definition Charts_Copy (c : list loc) : M (list loc) :=
  collect (λ p, let* v := loadChart p in Chart_Copy v) c.

(** Modelled from the spec: [Chart.MarkRemove], defined in
    agent/module.  The spec has the charts "flagged for removal": the
    method sets the removal mark of the chart. *)
Definition MarkRemove (c : loc) : M unit := modifyChart c (set_remove true).

(** Modelled from the spec: [Chart.MarkNotCreated], defined in
    agent/module: the method clears the created mark of the chart. *)
Definition MarkNotCreated (c : loc) : M unit := modifyChart c (set_created false).

(** Modelled from the spec: [checkID] of agent/module, on which the
    spec is silent: the first white-space rune of an ID, or [-1] when
    there is none. *)
Definition checkID (id : string) : Z :=
  match List.find IsSpace (rangeRunes 0 id) with
  | Some r => Z.of_N r
  | None => (-1)%Z
  end.

(** Modelled from the spec: [checkDim] of agent/module, on which the
    spec is silent: a dimension needs an ID that is not empty and has no
    white space. *)
Definition checkDim (d : loc) : M (option checkError) :=
  let* v := loadDim d in
  if bool_decide (Dim.ID v = "") then ret (Some errEmptyDimID)
  else if bool_decide (checkID (Dim.ID v) ≠ (-1)%Z)
       then ret (Some (errUnacceptableDimSymbol (Dim.ID v) (checkID (Dim.ID v))))
       else ret None.

(** Modelled from the spec: the loop of [checkChart] over the
    dimensions, with the set of the IDs seen so far: each dimension
    passes [checkDim] and repeats no ID of the chart. *)
Fixpoint checkDims (dims : list loc) (set : gset string) : M (option checkError) :=
  match dims with
  | [] => ret None
  | d :: rest =>
      let* err := checkDim d in
      match err with
      | Some e => ret (Some e)
      | None =>
          let* v := loadDim d in
          if bool_decide (Dim.ID v ∈ set) then ret (Some (errDuplicateDim (Dim.ID v)))
          else checkDims rest ({[ Dim.ID v ]} ∪ set)
      end
  end.

(** Modelled from the spec: [checkChart] of agent/module, on which the
    spec is silent: a chart needs an ID, a title and units that are not
    empty, an ID without white space, and dimensions that pass
    [checkDims].  The variables of a chart, which charts.go never
    sets, are not part of the record. *)
Definition checkChart (chart : loc) : M (option checkError) :=
  let* v := loadChart chart in
  if bool_decide (ID v = "") then ret (Some errEmptyID)
  else if bool_decide (Title v = "") then ret (Some errEmptyTitle)
  else if bool_decide (Units v = "") then ret (Some errEmptyUnits)
  else if bool_decide (checkID (ID v) ≠ (-1)%Z)
       then ret (Some (errUnacceptableSymbol (checkID (ID v))))
       else checkDims (Dims v) ∅.

(** Modelled from the spec: [Charts.Get], defined in agent/module: the
    first chart of the collection with the given ID, if there is one. *)
Fixpoint Charts_Get (c : list loc) (chartID : string) : M (option loc) :=
  match c with
  | [] => ret None
  | p :: c' =>
      let* v := loadChart p in
      if bool_decide (ID v = chartID) then ret (Some p) else Charts_Get c' chartID
  end.

(** Modelled from the spec: [Charts.Add], defined in agent/module, which
    registers charts with the collection (the spec has them "registered
    with the host" and chart IDs unique).  The spec is silent on when
    registration fails; the rules are those of agent/module.  The charts
    are taken one after the other: a chart that fails [checkChart], or
    whose ID belongs to a chart of the collection that is not marked for
    removal, stops the call with an error; otherwise the chart is
    appended. *)
Fixpoint Charts_Add (charts : list loc) : M (option error) :=
  match charts with
  | [] => ret None
  | chart :: rest =>
      let* err := checkChart chart in
      let* v := loadChart chart in
      match err with
      | Some e => ret (Some (errAddingChart (ID v) e))
      | None =>
          let* registered := getCharts in
          let* found := Charts_Get registered (ID v) in
          let* live :=
            match found with
            | Some q => let* w := loadChart q in ret (negb (remove w))
            | None => ret false
            end in
          if live then ret (Some (errAlreadyInCharts (ID v)))
          else appendChart chart ;;; Charts_Add rest
      end
  end.

(** ** charts.go *)

Section Postgres.

(** [module.Priority], a constant declared in agent/module; charts.go
    only adds to it, and everything below holds for each value of it. *)
Variable module_Priority : Z.

(** The constant block: [module.Priority + iota]. *)
Definition prioConnectionsUtilization : Z := module_Priority + 0.
Definition prioConnectionsUsage : Z := module_Priority + 1.
Definition prioCheckpoints : Z := module_Priority + 2.
Definition prioCheckpointTime : Z := module_Priority + 3.
Definition prioBGWriterBuffersAllocated : Z := module_Priority + 4.
Definition prioBGWriterBuffersWritten : Z := module_Priority + 5.
Definition prioBGWriterMaxWrittenClean : Z := module_Priority + 6.
Definition prioBGWriterBackedFsync : Z := module_Priority + 7.
Definition prioWALWrites : Z := module_Priority + 8.
Definition prioWALFiles : Z := module_Priority + 9.
Definition prioWALArchive : Z := module_Priority + 10.
Definition prioAutovacuumWorkers : Z := module_Priority + 11.
Definition prioAutovacuumPercentTowards : Z := module_Priority + 12.
Definition prioTXIDWraparoundPercentTowards : Z := module_Priority + 13.
Definition prioTXIDWraparoundOldestTXID : Z := module_Priority + 14.
Definition prioCatalogRelationCount : Z := module_Priority + 15.
Definition prioCatalogRelationSize : Z := module_Priority + 16.
Definition prioUptime : Z := module_Priority + 17.
Definition prioDBTransactions : Z := module_Priority + 18.
Definition prioDBConnectionsUtilization : Z := module_Priority + 19.
Definition prioDBConnections : Z := module_Priority + 20.
Definition prioDBBufferCache : Z := module_Priority + 21.
Definition prioDBReadOperations : Z := module_Priority + 22.
Definition prioDBWriteOperations : Z := module_Priority + 23.
Definition prioDBConflicts : Z := module_Priority + 24.
Definition prioDBConflictsStat : Z := module_Priority + 25.
Definition prioDBDeadlocks : Z := module_Priority + 26.
Definition prioDBLocksHeld : Z := module_Priority + 27.
Definition prioDBLocksAwaited : Z := module_Priority + 28.
Definition prioDBTempFiles : Z := module_Priority + 29.
Definition prioDBTempFilesData : Z := module_Priority + 30.
Definition prioDBSize : Z := module_Priority + 31.

(** The chart definitions. *)

Definition serverConnectionsUtilizationChart : ChartLit :=
  module_Chart "connections_utilization"
    "Connections utilization"
    "percentage" "connections"
    "postgres.connections_utilization"
    prioConnectionsUtilization TypeUnset
    [ {| Dim.ID := "server_connections_utilization"; Dim.Name := "used"; Dim.Algo := AlgoUnset |} ].

Definition serverConnectionsUsageChart : ChartLit :=
  module_Chart "connections_usage"
    "Connections usage"
    "connections" "connections"
    "postgres.connections_usage"
    prioConnectionsUsage Stacked
    [ {| Dim.ID := "server_connections_available"; Dim.Name := "available"; Dim.Algo := AlgoUnset |};
      {| Dim.ID := "server_connections_used"; Dim.Name := "used"; Dim.Algo := AlgoUnset |} ].

Definition checkpointsChart : ChartLit :=
  module_Chart "checkpoints"
    "Checkpoints"
    "checkpoints/s" "checkpointer"
    "postgres.checkpoints"
    prioCheckpoints Stacked
    [ {| Dim.ID := "checkpoints_timed"; Dim.Name := "scheduled"; Dim.Algo := Incremental |};
      {| Dim.ID := "checkpoints_req"; Dim.Name := "requested"; Dim.Algo := Incremental |} ].

Definition checkpointWriteChart : ChartLit :=
  module_Chart "checkpoint_time"
    "Checkpoint time"
    "milliseconds" "checkpointer"
    "postgres.checkpoint_time"
    prioCheckpointTime TypeUnset
    [ {| Dim.ID := "checkpoint_write_time"; Dim.Name := "write"; Dim.Algo := Incremental |};
      {| Dim.ID := "checkpoint_sync_time"; Dim.Name := "sync"; Dim.Algo := Incremental |} ].

Definition bgWriterBuffersAllocChart : ChartLit :=
  module_Chart "bgwriter_buffers_alloc"
    "Background writer buffers allocated"
    "B/s" "background writer"
    "postgres.bgwriter_buffers_alloc"
    prioBGWriterBuffersAllocated TypeUnset
    [ {| Dim.ID := "buffers_alloc"; Dim.Name := "allocated"; Dim.Algo := Incremental |} ].

Definition bgWriterBuffersWrittenChart : ChartLit :=
  module_Chart "bgwriter_buffers_written"
    "Background writer buffers written"
    "B/s" "background writer"
    "postgres.bgwriter_buffers_written"
    prioBGWriterBuffersWritten Area
    [ {| Dim.ID := "buffers_checkpoint"; Dim.Name := "checkpoint"; Dim.Algo := Incremental |};
      {| Dim.ID := "buffers_backend"; Dim.Name := "backend"; Dim.Algo := Incremental |};
      {| Dim.ID := "buffers_clean"; Dim.Name := "clean"; Dim.Algo := Incremental |} ].

Definition bgWriterMaxWrittenCleanChart : ChartLit :=
  module_Chart "bgwriter_maxwritten_clean"
    "Background writer cleaning scan stops"
    "events/s" "background writer"
    "postgres.bgwriter_maxwritten_clean"
    prioBGWriterMaxWrittenClean TypeUnset
    [ {| Dim.ID := "maxwritten_clean"; Dim.Name := "maxwritten"; Dim.Algo := Incremental |} ].

Definition bgWriterBuffersBackendFsyncChart : ChartLit :=
  module_Chart "bgwriter_buffers_backend_fsync"
    "Backend fsync"
    "operations/s" "background writer"
    "postgres.bgwriter_buffers_backend_fsync"
    prioBGWriterBackedFsync TypeUnset
    [ {| Dim.ID := "buffers_backend_fsync"; Dim.Name := "fsync"; Dim.Algo := Incremental |} ].

Definition walWritesChart : ChartLit :=
  module_Chart "wal_writes"
    "Write-Ahead Log"
    "B/s" "wal"
    "postgres.wal_writes"
    prioWALWrites TypeUnset
    [ {| Dim.ID := "wal_writes"; Dim.Name := "writes"; Dim.Algo := Incremental |} ].

Definition walFilesChart : ChartLit :=
  module_Chart "wal_files"
    "Write-Ahead Log files"
    "files" "wal"
    "postgres.wal_files"
    prioWALFiles Stacked
    [ {| Dim.ID := "wal_written_files"; Dim.Name := "written"; Dim.Algo := AlgoUnset |};
      {| Dim.ID := "wal_recycled_files"; Dim.Name := "recycled"; Dim.Algo := AlgoUnset |} ].

Definition walArchiveFilesChart : ChartLit :=
  module_Chart "wal_archive_files"
    "Write-Ahead Log archive files"
    "files/s" "wal archive"
    "postgres.wal_archive_files"
    prioWALArchive Stacked
    [ {| Dim.ID := "wal_archive_files_ready_count"; Dim.Name := "ready"; Dim.Algo := Incremental |};
      {| Dim.ID := "wal_archive_files_done_count"; Dim.Name := "done"; Dim.Algo := Incremental |} ].

Definition autovacuumWorkersChart : ChartLit :=
  module_Chart "autovacuum_workers"
    "Autovacuum workers"
    "workers" "autovacuum"
    "postgres.autovacuum_workers"
    prioAutovacuumWorkers TypeUnset
    [ {| Dim.ID := "autovacuum_analyze"; Dim.Name := "analyze"; Dim.Algo := AlgoUnset |};
      {| Dim.ID := "autovacuum_vacuum_analyze"; Dim.Name := "vacuum_analyze"; Dim.Algo := AlgoUnset |};
      {| Dim.ID := "autovacuum_vacuum"; Dim.Name := "vacuum"; Dim.Algo := AlgoUnset |};
      {| Dim.ID := "autovacuum_vacuum_freeze"; Dim.Name := "vacuum_freeze"; Dim.Algo := AlgoUnset |};
      {| Dim.ID := "autovacuum_brin_summarize"; Dim.Name := "brin_summarize"; Dim.Algo := AlgoUnset |} ].

Definition percentTowardsEmergencyAutovacuumChart : ChartLit :=
  module_Chart "percent_towards_emergency_autovacuum"
    "Percent towards emergency autovacuum"
    "percentage" "autovacuum"
    "postgres.percent_towards_emergency_autovacuum"
    prioAutovacuumPercentTowards TypeUnset
    [ {| Dim.ID := "percent_towards_emergency_autovacuum"; Dim.Name := "emergency_autovacuum"; Dim.Algo := AlgoUnset |} ].

Definition percentTowardTXIDWraparoundChart : ChartLit :=
  module_Chart "percent_towards_txid_wraparound"
    "Percent towards transaction ID wraparound"
    "percentage" "txid wraparound"
    "postgres.percent_towards_txid_wraparound"
    prioTXIDWraparoundPercentTowards TypeUnset
    [ {| Dim.ID := "percent_towards_wraparound"; Dim.Name := "txid_wraparound"; Dim.Algo := AlgoUnset |} ].

Definition oldestTXIDChart : ChartLit :=
  module_Chart "oldest_transaction_xid"
    "Oldest transaction XID"
    "xid" "txid wraparound"
    "postgres.oldest_transaction_xid"
    prioTXIDWraparoundOldestTXID TypeUnset
    [ {| Dim.ID := "oldest_current_xid"; Dim.Name := "xid"; Dim.Algo := AlgoUnset |} ].

Definition catalogRelationCountChart : ChartLit :=
  module_Chart "catalog_relation_count"
    "Relation count"
    "relations" "catalog"
    "postgres.catalog_relation_count"
    prioCatalogRelationCount Stacked
    [ {| Dim.ID := "catalog_relkind_r_count"; Dim.Name := "ordinary_table"; Dim.Algo := AlgoUnset |};
      {| Dim.ID := "catalog_relkind_i_count"; Dim.Name := "index"; Dim.Algo := AlgoUnset |};
      {| Dim.ID := "catalog_relkind_S_count"; Dim.Name := "sequence"; Dim.Algo := AlgoUnset |};
      {| Dim.ID := "catalog_relkind_t_count"; Dim.Name := "toast_table"; Dim.Algo := AlgoUnset |};
      {| Dim.ID := "catalog_relkind_v_count"; Dim.Name := "view"; Dim.Algo := AlgoUnset |};
      {| Dim.ID := "catalog_relkind_m_count"; Dim.Name := "materialized_view"; Dim.Algo := AlgoUnset |};
      {| Dim.ID := "catalog_relkind_c_count"; Dim.Name := "composite_type"; Dim.Algo := AlgoUnset |};
      {| Dim.ID := "catalog_relkind_f_count"; Dim.Name := "foreign_table"; Dim.Algo := AlgoUnset |};
      {| Dim.ID := "catalog_relkind_p_count"; Dim.Name := "partitioned_table"; Dim.Algo := AlgoUnset |};
      {| Dim.ID := "catalog_relkind_I_count"; Dim.Name := "partitioned_index"; Dim.Algo := AlgoUnset |} ].

Definition catalogRelationSizeChart : ChartLit :=
  module_Chart "catalog_relation_size"
    "Relation size"
    "B" "catalog"
    "postgres.catalog_relation_size"
    prioCatalogRelationSize Stacked
    [ {| Dim.ID := "catalog_relkind_r_size"; Dim.Name := "ordinary_table"; Dim.Algo := AlgoUnset |};
      {| Dim.ID := "catalog_relkind_i_size"; Dim.Name := "index"; Dim.Algo := AlgoUnset |};
      {| Dim.ID := "catalog_relkind_S_size"; Dim.Name := "sequence"; Dim.Algo := AlgoUnset |};
      {| Dim.ID := "catalog_relkind_t_size"; Dim.Name := "toast_table"; Dim.Algo := AlgoUnset |};
      {| Dim.ID := "catalog_relkind_v_size"; Dim.Name := "view"; Dim.Algo := AlgoUnset |};
      {| Dim.ID := "catalog_relkind_m_size"; Dim.Name := "materialized_view"; Dim.Algo := AlgoUnset |};
      {| Dim.ID := "catalog_relkind_c_size"; Dim.Name := "composite_type"; Dim.Algo := AlgoUnset |};
      {| Dim.ID := "catalog_relkind_f_size"; Dim.Name := "foreign_table"; Dim.Algo := AlgoUnset |};
      {| Dim.ID := "catalog_relkind_p_size"; Dim.Name := "partitioned_table"; Dim.Algo := AlgoUnset |};
      {| Dim.ID := "catalog_relkind_I_size"; Dim.Name := "partitioned_index"; Dim.Algo := AlgoUnset |} ].

Definition serverUptimeChart : ChartLit :=
  module_Chart "server_uptime"
    "Uptime"
    "seconds" "uptime"
    "postgres.uptime"
    prioUptime TypeUnset
    [ {| Dim.ID := "server_uptime"; Dim.Name := "uptime"; Dim.Algo := AlgoUnset |} ].

Definition dbTransactionsChartTmpl : ChartLit :=
  module_Chart "db_%s_transactions"
    "Database transactions"
    "transactions/s" "db transactions"
    "postgres.db_transactions"
    prioDBTransactions TypeUnset
    [ {| Dim.ID := "db_%s_xact_commit"; Dim.Name := "committed"; Dim.Algo := Incremental |};
      {| Dim.ID := "db_%s_xact_rollback"; Dim.Name := "rollback"; Dim.Algo := Incremental |} ].

Definition dbConnectionsUtilizationChartTmpl : ChartLit :=
  module_Chart "db_%s_connections_utilization"
    "Database connections utilization withing limits"
    "percentage" "db connections"
    "postgres.db_connections_utilization"
    prioDBConnectionsUtilization TypeUnset
    [ {| Dim.ID := "db_%s_numbackends_utilization"; Dim.Name := "used"; Dim.Algo := AlgoUnset |} ].

Definition dbConnectionsChartTmpl : ChartLit :=
  module_Chart "db_%s_connections"
    "Database connections"
    "connections" "db connections"
    "postgres.db_connections"
    prioDBConnections TypeUnset
    [ {| Dim.ID := "db_%s_numbackends"; Dim.Name := "connections"; Dim.Algo := AlgoUnset |} ].

Definition dbBufferCacheChartTmpl : ChartLit :=
  module_Chart "db_%s_buffer_cache"
    "Database buffer cache"
    "blocks/s" "db buffer cache"
    "postgres.db_buffer_cache"
    prioDBBufferCache Area
    [ {| Dim.ID := "db_%s_blks_hit"; Dim.Name := "hit"; Dim.Algo := Incremental |};
      {| Dim.ID := "db_%s_blks_read"; Dim.Name := "miss"; Dim.Algo := Incremental |} ].

Definition dbReadOpsChartTmpl : ChartLit :=
  module_Chart "db_%s_read_operations"
    "Database read operations"
    "rows/s" "db operations"
    "postgres.db_read_operations"
    prioDBReadOperations TypeUnset
    [ {| Dim.ID := "db_%s_tup_returned"; Dim.Name := "returned"; Dim.Algo := Incremental |};
      {| Dim.ID := "db_%s_tup_fetched"; Dim.Name := "fetched"; Dim.Algo := Incremental |} ].

Definition dbWriteOpsChartTmpl : ChartLit :=
  module_Chart "db_%s_write_operations"
    "Database write operations"
    "rows/s" "db operations"
    "postgres.db_write_operations"
    prioDBWriteOperations TypeUnset
    [ {| Dim.ID := "db_%s_tup_inserted"; Dim.Name := "inserted"; Dim.Algo := Incremental |};
      {| Dim.ID := "db_%s_tup_deleted"; Dim.Name := "deleted"; Dim.Algo := Incremental |};
      {| Dim.ID := "db_%s_tup_updated"; Dim.Name := "updated"; Dim.Algo := Incremental |} ].

Definition dbConflictsChartTmpl : ChartLit :=
  module_Chart "db_%s_conflicts"
    "Database canceled queries"
    "queries/s" "db operations"
    "postgres.db_conflicts"
    prioDBConflicts TypeUnset
    [ {| Dim.ID := "db_%s_conflicts"; Dim.Name := "conflicts"; Dim.Algo := Incremental |} ].

Definition dbConflictsStatChartTmpl : ChartLit :=
  module_Chart "db_%s_conflicts_stat"
    "Database canceled queries by reason"
    "queries/s" "db operations"
    "postgres.db_conflicts_stat"
    prioDBConflictsStat TypeUnset
    [ {| Dim.ID := "db_%s_confl_tablespace"; Dim.Name := "tablespace"; Dim.Algo := Incremental |};
      {| Dim.ID := "db_%s_confl_lock"; Dim.Name := "lock"; Dim.Algo := Incremental |};
      {| Dim.ID := "db_%s_confl_snapshot"; Dim.Name := "snapshot"; Dim.Algo := Incremental |};
      {| Dim.ID := "db_%s_confl_bufferpin"; Dim.Name := "bufferpin"; Dim.Algo := Incremental |};
      {| Dim.ID := "db_%s_confl_deadlock"; Dim.Name := "deadlock"; Dim.Algo := Incremental |} ].

Definition dbDeadlocksChartTmpl : ChartLit :=
  module_Chart "db_%s_deadlocks"
    "Database deadlocks"
    "deadlocks/s" "db deadlocks"
    "postgres.db_deadlocks"
    prioDBDeadlocks TypeUnset
    [ {| Dim.ID := "db_%s_deadlocks"; Dim.Name := "deadlocks"; Dim.Algo := Incremental |} ].

Definition dbLocksHeldChartTmpl : ChartLit :=
  module_Chart "db_%s_locks_held"
    "Database locks held"
    "locks" "db locks"
    "postgres.db_locks_held"
    prioDBLocksHeld Stacked
    [ {| Dim.ID := "db_%s_lock_mode_AccessShareLock_held"; Dim.Name := "access_share"; Dim.Algo := AlgoUnset |};
      {| Dim.ID := "db_%s_lock_mode_RowShareLock_held"; Dim.Name := "row_share"; Dim.Algo := AlgoUnset |};
      {| Dim.ID := "db_%s_lock_mode_RowExclusiveLock_held"; Dim.Name := "row_exclusive"; Dim.Algo := AlgoUnset |};
      {| Dim.ID := "db_%s_lock_mode_ShareUpdateExclusiveLock_held"; Dim.Name := "share_update"; Dim.Algo := AlgoUnset |};
      {| Dim.ID := "db_%s_lock_mode_ShareLock_held"; Dim.Name := "share"; Dim.Algo := AlgoUnset |};
      {| Dim.ID := "db_%s_lock_mode_ShareRowExclusiveLock_held"; Dim.Name := "share_row_exclusive"; Dim.Algo := AlgoUnset |};
      {| Dim.ID := "db_%s_lock_mode_ExclusiveLock_held"; Dim.Name := "exclusive"; Dim.Algo := AlgoUnset |};
      {| Dim.ID := "db_%s_lock_mode_AccessExclusiveLock_held"; Dim.Name := "access_exclusive"; Dim.Algo := AlgoUnset |} ].

Definition dbLocksAwaitedChartTmpl : ChartLit :=
  module_Chart "db_%s_locks_awaited"
    "Database locks awaited"
    "locks" "db locks"
    "postgres.db_locks_awaited"
    prioDBLocksAwaited Stacked
    [ {| Dim.ID := "db_%s_lock_mode_AccessShareLock_awaited"; Dim.Name := "access_share"; Dim.Algo := AlgoUnset |};
      {| Dim.ID := "db_%s_lock_mode_RowShareLock_awaited"; Dim.Name := "row_share"; Dim.Algo := AlgoUnset |};
      {| Dim.ID := "db_%s_lock_mode_RowExclusiveLock_awaited"; Dim.Name := "row_exclusive"; Dim.Algo := AlgoUnset |};
      {| Dim.ID := "db_%s_lock_mode_ShareUpdateExclusiveLock_awaited"; Dim.Name := "share_update"; Dim.Algo := AlgoUnset |};
      {| Dim.ID := "db_%s_lock_mode_ShareLock_awaited"; Dim.Name := "share"; Dim.Algo := AlgoUnset |};
      {| Dim.ID := "db_%s_lock_mode_ShareRowExclusiveLock_awaited"; Dim.Name := "share_row_exclusive"; Dim.Algo := AlgoUnset |};
      {| Dim.ID := "db_%s_lock_mode_ExclusiveLock_awaited"; Dim.Name := "exclusive"; Dim.Algo := AlgoUnset |};
      {| Dim.ID := "db_%s_lock_mode_AccessExclusiveLock_awaited"; Dim.Name := "access_exclusive"; Dim.Algo := AlgoUnset |} ].

Definition dbTempFilesChartTmpl : ChartLit :=
  module_Chart "db_%s_temp_files"
    "Database temporary files written to disk"
    "files/s" "db temp files"
    "postgres.db_temp_files"
    prioDBTempFiles TypeUnset
    [ {| Dim.ID := "db_%s_temp_files"; Dim.Name := "written"; Dim.Algo := Incremental |} ].

Definition dbTempFilesDataChartTmpl : ChartLit :=
  module_Chart "db_%s_temp_files_data"
    "Database temporary files data written to disk"
    "B/s" "db temp files"
    "postgres.db_temp_files_data"
    prioDBTempFilesData TypeUnset
    [ {| Dim.ID := "db_%s_temp_bytes"; Dim.Name := "written"; Dim.Algo := Incremental |} ].

Definition dbSizeChartTmpl : ChartLit :=
  module_Chart "db_%s_size"
    "Database size"
    "B" "db size"
    "postgres.db_size"
    prioDBSize TypeUnset
    [ {| Dim.ID := "db_%s_size"; Dim.Name := "size"; Dim.Algo := AlgoUnset |} ].


(** Evaluating a chart literal allocates its dimensions. *)
Definition literal (c : ChartLit) : M Chart :=
  let* dims := collect newDim (Dims c) in ret (set_Dims dims c).

(** The operands of the two [module.Charts{..}] literals, in order. *)
Definition baseChartsLits : list ChartLit :=
  [ serverConnectionsUtilizationChart;
    serverConnectionsUsageChart;
    checkpointsChart;
    checkpointWriteChart;
    bgWriterBuffersWrittenChart;
    bgWriterBuffersAllocChart;
    bgWriterMaxWrittenCleanChart;
    bgWriterBuffersBackendFsyncChart;
    walWritesChart;
    walFilesChart;
    walArchiveFilesChart;
    autovacuumWorkersChart;
    percentTowardsEmergencyAutovacuumChart;
    percentTowardTXIDWraparoundChart;
    oldestTXIDChart;
    catalogRelationCountChart;
    catalogRelationSizeChart;
    serverUptimeChart ].

Definition dbChartsTmplLits : list ChartLit :=
  [ dbTransactionsChartTmpl;
    dbConnectionsUtilizationChartTmpl;
    dbConnectionsChartTmpl;
    dbBufferCacheChartTmpl;
    dbReadOpsChartTmpl;
    dbWriteOpsChartTmpl;
    dbConflictsChartTmpl;
    dbConflictsStatChartTmpl;
    dbDeadlocksChartTmpl;
    dbLocksHeldChartTmpl;
    dbLocksAwaitedChartTmpl;
    dbTempFilesChartTmpl;
    dbTempFilesDataChartTmpl;
    dbSizeChartTmpl ].

(** Package initialisation: each element [x.Copy()] of the two slices
    copies the chart variable [x]. *)
Definition initCharts (lits : list ChartLit) : M (list loc) :=
  collect (λ l, let* c := literal l in Chart_Copy c) lits.

Definition initPackage : M (list loc * list loc) :=
  let* base := initCharts baseChartsLits in
  let* db := initCharts dbChartsTmplLits in
  ret (base, db).

Definition emptyState : State := mkState [] [] [] [].

(** The package variables [baseCharts] and [dbChartsTmpl], and the
    store once the package is initialised (no chart registered yet). *)
Definition baseCharts : list loc :=
  match initPackage emptyState with Ok (base, _) _ => base | Panic => [] end.

Definition dbChartsTmpl : list loc :=
  match initPackage emptyState with Ok (_, db) _ => db | Panic => [] end.

Definition initState : State :=
  match initPackage emptyState with Ok _ s => s | Panic => emptyState end.

(** The three functions. *)

Definition newDatabaseCharts (dbname : string) : M (list loc) :=
  let* charts := Charts_Copy dbChartsTmpl in
  forEach charts (λ c,
    modifyChart c (λ v, set_ID (Sprintf (ID v) [dbname]) v) ;;;
    modifyChart c (set_Labels [ {| Key := "database"; Value := dbname |} ]) ;;;
    let* v := loadChart c in
    forEach (Dims v) (λ d,
      modifyDim d (λ w, Dim.set_ID (Sprintf (Dim.ID w) [dbname]) w))) ;;;
  ret charts.

Definition addNewDatabaseCharts (dbname : string) : M unit :=
  let* charts := newDatabaseCharts dbname in
  let* err := Charts_Add charts in
  match err with
  | Some e => Warning e
  | None => ret tt
  end.

Definition removeDatabaseCharts (dbname : string) : M unit :=
  let prefix := Sprintf "db_%s_" [dbname] in
  let* registered := getCharts in
  forEach registered (λ c,
    let* v := loadChart c in
    if HasPrefix (ID v) prefix then MarkRemove c ;;; MarkNotCreated c
    else ret tt).

(** ** Reading the store *)

(** What a reader following the pointers sees: the dimensions behind
    a slice of pointers, a chart with its dimensions, a slice of charts.
    [None] when a pointer leads to no cell. *)
Definition viewDims (s : State) (ps : list loc) : option (list Dim.t) :=
  mapM (λ p, dimsH s !! p) ps.

Definition viewChart (s : State) (p : loc) : option ChartLit :=
  c ← chartsH s !! p;
  ds ← viewDims s (Dims c);
  Some (set_Dims ds c).

Definition viewCharts (s : State) (ps : list loc) : option (list ChartLit) :=
  mapM (viewChart s) ps.

(** The ID of the chart behind a pointer. *)
Definition idAt (s : State) (p : loc) : string :=
  from_option ID "" (chartsH s !! p).

(** Every pointer of the slice leads to a chart cell. *)
Definition validCharts (s : State) (ps : list loc) : Prop :=
  Forall (λ p, is_Some (chartsH s !! p)) ps.

(** The package data is as initialised: the charts of [dbChartsTmpl]
    and of [baseCharts] read as their definitions. *)
Definition tmplIntact (s : State) : Prop :=
  viewCharts s dbChartsTmpl = Some dbChartsTmplLits.

Definition baseIntact (s : State) : Prop :=
  viewCharts s baseCharts = Some baseChartsLits.

(** The cells that copying the charts [vs] appends to the chart store
    when the dimension store has [base] cells: chart after chart, each
    with pointers to its own run of new dimension cells. *)
Fixpoint layout (base : nat) (vs : list ChartLit) : list Chart :=
  match vs with
  | [] => []
  | v :: vs' =>
      set_Dims (seq base (length (Dims v))) v
      :: layout (base + length (Dims v)) vs'
  end.

Definition allDims (vs : list ChartLit) : list Dim.t :=
  concat (map Dims vs).

(** ** Vocabulary of the specification *)

(** The loop body of [newDatabaseCharts] seen on a chart with its
    dimensions. *)
Definition stampDim (dbname : string) (w : Dim.t) : Dim.t :=
  Dim.set_ID (Sprintf (Dim.ID w) [dbname]) w.

Definition stamp (dbname : string) (v : ChartLit) : ChartLit :=
  set_Dims (map (stampDim dbname) (Dims v))
    (set_Labels [ {| Key := "database"; Value := dbname |} ]
       (set_ID (Sprintf (ID v) [dbname]) v)).

(** Literal replacement: every occurrence of the two characters [%s],
    left to right, is replaced by [d]; nothing else is interpreted. *)
Fixpoint substPlaceholder (d : string) (s : string) : string :=
  match s with
  | EmptyString => EmptyString
  | String c rest =>
      match rest with
      | String c' rest' =>
          if bool_decide (c = "%"%char) && bool_decide (c' = "s"%char)
          then d +:+ substPlaceholder d rest'
          else String c (substPlaceholder d rest)
      | EmptyString => String c EmptyString
      end
  end.

(** A chart of the template instantiated for database [d], in the
    words of the spec: [d] replaces the placeholder in the chart ID and
    in each dimension ID, the label [database: d] is attached, the rest
    is the template's. *)
Definition instantiateDim (d : string) (w : Dim.t) : Dim.t :=
  {| Dim.ID := substPlaceholder d (Dim.ID w);
     Dim.Name := Dim.Name w; Dim.Algo := Dim.Algo w |}.

Definition instantiate (d : string) (v : ChartLit) : ChartLit :=
  {| ID := substPlaceholder d (ID v);
     Title := Title v; Units := Units v; Fam := Fam v; Ctx := Ctx v;
     Type_ := Type_ v; Priority := Priority v;
     Labels := [ {| Key := "database"; Value := d |} ];
     Dims := map (instantiateDim d) (Dims v);
     remove := remove v; created := created v |}.

(** The IDs of the charts instantiated for [d]. *)
Definition databaseChartIDs (d : string) : list string :=
  map (λ v, substPlaceholder d (ID v)) dbChartsTmplLits.

(** A string without [%]. *)
Fixpoint noPercent (s : string) : bool :=
  match s with
  | EmptyString => true
  | String c rest => negb (bool_decide (c = "%"%char)) && noPercent rest
  end.

(** A format with one directive, [%s]: the text before it and the
    text after it. *)
Fixpoint cut (format : string) : option (string * string) :=
  match format with
  | EmptyString => None
  | String c rest =>
      if bool_decide (c = "%"%char) then
        match rest with
        | String v post =>
            if bool_decide (v = "s"%char) && noPercent post
            then Some (EmptyString, post) else None
        | EmptyString => None
        end
      else
        match cut rest with
        | Some (pre, post) => Some (String c pre, post)
        | None => None
        end
  end.

Definition cuts (f : string) : bool :=
  match cut f with Some _ => true | None => false end.

(** All format strings of the template: chart IDs and dimension IDs. *)
Definition tmplFormats : list string :=
  flat_map (λ v, ID v :: map Dim.ID (Dims v)) dbChartsTmplLits.

(** The marks of [removeDatabaseCharts]. *)
Definition mark (c : Chart) : Chart := set_created false (set_remove true c).

(** The chart store after the loop of [removeDatabaseCharts] over the
    collection [ps]: the cells the collection points to whose ID has
    the prefix are marked, every other cell is as before. *)
Definition markCell (prefix : string) (ps : list loc) (i : nat) (c : Chart) : Chart :=
  if bool_decide (i ∈ ps) && HasPrefix (ID c) prefix then mark c else c.

Definition markStore (prefix : string) (ps : list loc) (h : list Chart) : list Chart :=
  imap (markCell prefix ps) h.

(** [checkChart] read on a chart with its dimensions. *)
Definition checkDimLit (w : Dim.t) : option checkError :=
  if bool_decide (Dim.ID w = "") then Some errEmptyDimID
  else if bool_decide (checkID (Dim.ID w) ≠ (-1)%Z)
       then Some (errUnacceptableDimSymbol (Dim.ID w) (checkID (Dim.ID w)))
       else None.

Fixpoint checkDimsLit (ws : list Dim.t) (set : gset string) : option checkError :=
  match ws with
  | [] => None
  | w :: rest =>
      match checkDimLit w with
      | Some e => Some e
      | None =>
          if bool_decide (Dim.ID w ∈ set) then Some (errDuplicateDim (Dim.ID w))
          else checkDimsLit rest ({[ Dim.ID w ]} ∪ set)
      end
  end.

Definition checkChartLit (v : ChartLit) : option checkError :=
  if bool_decide (ID v = "") then Some errEmptyID
  else if bool_decide (Title v = "") then Some errEmptyTitle
  else if bool_decide (Units v = "") then Some errEmptyUnits
  else if bool_decide (checkID (ID v) ≠ (-1)%Z)
       then Some (errUnacceptableSymbol (checkID (ID v)))
       else checkDimsLit (Dims v) ∅.

(** The first chart of a collection with a given ID, and whether
    there is one that is not marked for removal. *)
Fixpoint firstWithID (s : State) (reg : list loc) (id : string) : option loc :=
  match reg with
  | [] => None
  | p :: reg' =>
      if bool_decide (idAt s p = id) then Some p else firstWithID s reg' id
  end.

Definition liveID (s : State) (reg : list loc) (id : string) : bool :=
  match firstWithID s reg id with
  | Some q => from_option (λ w, negb (remove w)) false (chartsH s !! q)
  | None => false
  end.

(** [Charts.Add] read on the store [s], which it does not change: the
    outcome and the collection it leaves. *)
Fixpoint addPure (s : State) (reg new : list loc) : option error * list loc :=
  match new with
  | [] => (None, reg)
  | c :: rest =>
      match viewChart s c with
      | None => (None, reg)
      | Some v =>
          match checkChartLit v with
          | Some e => (Some (errAddingChart (ID v) e), reg)
          | None =>
              if liveID s reg (ID v)
              then (Some (errAlreadyInCharts (ID v)), reg)
              else addPure s (reg ++ [c]) rest
          end
      end
  end.

(** The state with another collection or another log. *)
Definition withCharts (ps : list loc) (s : State) : State :=
  mkState (chartsH s) (dimsH s) ps (p_log s).

Definition withStore (h : list Chart) (ds : list Dim.t) (s : State) : State :=
  mkState h ds (p_charts s) (p_log s).

(** Two dimensions, two charts that agree on everything but the
    dimension ID, respectively the chart ID, the labels and the
    dimension IDs. *)
Definition sameDim (r t : Dim.t) : Prop :=
  Dim.Name r = Dim.Name t ∧ Dim.Algo r = Dim.Algo t.

Definition sameChart (r t : ChartLit) : Prop :=
  Title r = Title t ∧ Units r = Units t ∧ Fam r = Fam t ∧ Ctx r = Ctx t ∧
  Priority r = Priority t ∧ Type_ r = Type_ t ∧
  remove r = remove t ∧ created r = created t ∧
  Forall2 sameDim (Dims r) (Dims t).

(** A format with the single directive [%s], read off the text around
    it, and what [Sprintf] prints for it. *)
Definition singleDirective (d f : string) : Prop :=
  verbs f = ["s"%char] ∧
  ∃ pre post,
    f = pre +:+ "%s" +:+ post ∧ noPercent pre = true ∧ noPercent post = true ∧
    Sprintf f [d] = pre +:+ d +:+ post.

(** The IDs of a chart and of its dimensions are the template's with
    [d] in the place of [%s]. *)
Definition substitutedIDs (d : string) (r t : ChartLit) : Prop :=
  ID r = substPlaceholder d (ID t) ∧
  Forall2 (λ w u, Dim.ID w = substPlaceholder d (Dim.ID u)) (Dims r) (Dims t).

(** The constants of the block, in the order of their declaration. *)
Definition prioConstants : list Z :=
  [ prioConnectionsUtilization; prioConnectionsUsage;
    prioCheckpoints; prioCheckpointTime;
    prioBGWriterBuffersAllocated; prioBGWriterBuffersWritten;
    prioBGWriterMaxWrittenClean; prioBGWriterBackedFsync;
    prioWALWrites; prioWALFiles;
    prioWALArchive; prioAutovacuumWorkers;
    prioAutovacuumPercentTowards; prioTXIDWraparoundPercentTowards;
    prioTXIDWraparoundOldestTXID; prioCatalogRelationCount;
    prioCatalogRelationSize; prioUptime;
    prioDBTransactions; prioDBConnectionsUtilization;
    prioDBConnections; prioDBBufferCache;
    prioDBReadOperations; prioDBWriteOperations;
    prioDBConflicts; prioDBConflictsStat;
    prioDBDeadlocks; prioDBLocksHeld;
    prioDBLocksAwaited; prioDBTempFiles;
    prioDBTempFilesData; prioDBSize ].

(** The text after the placeholder of each template chart ID. *)
Definition dbChartSuffixes : list string :=
  omap (λ v, snd <$> cut (ID v)) dbChartsTmplLits.

(** No registered chart has an ID that [newDatabaseCharts] generates
    for [d]. *)
Definition noConflict (d : string) (s : State) : Prop :=
  Forall (λ p, idAt s p ∉ databaseChartIDs d) (p_charts s).

Definition withLog (l : list error) (s : State) : State :=
  mkState (chartsH s) (dimsH s) (p_charts s) l.

(** The state a computation leaves. *)
Definition stateAfter {A} (m : M A) (s : State) : State :=
  match m s with Ok _ s' => s' | Panic => s end.

(** The removal mark of the chart behind a pointer. *)
Definition removeAt (s : State) (p : loc) : option bool :=
  remove <$> chartsH s !! p.

(** After [addNewDatabaseCharts(d)] then [removeDatabaseCharts(d)] from
    [s], each of the 14 charts instantiated for [d] by the first call
    has the removal mark. *)
Definition marksAllInstantiated (d : string) (s : State) : Prop :=
  ∃ charts s1 s2 s3,
    newDatabaseCharts d s = Ok charts s1 ∧
    addNewDatabaseCharts d s = Ok tt s2 ∧
    removeDatabaseCharts d s2 = Ok tt s3 ∧
    length charts = 14 ∧
    ∀ p, p ∈ charts → removeAt s3 p = Some true.

Definition marksAllInstantiatedb (d : string) (s : State) : bool :=
  match newDatabaseCharts d s, addNewDatabaseCharts d s with
  | Ok charts _, Ok _ s2 =>
      match removeDatabaseCharts d s2 with
      | Ok _ s3 => forallb (λ p, bool_decide (removeAt s3 p = Some true)) charts
      | Panic => false
      end
  | _, _ => false
  end.

(** The value a computation returns ([dflt] if it panics). *)
Definition valueOf {A} (dflt : A) (m : M A) (s : State) : A :=
  match m s with Ok a _ => a | Panic => dflt end.

(** The state once the charts of the database [postgres] are
    registered, starting from the initialised package. *)
Definition registeredState : State :=
  stateAfter (addNewDatabaseCharts "postgres") initState.

(** The state once these charts are retired: registered still, and
    marked for removal. *)
Definition retiredState : State :=
  stateAfter (removeDatabaseCharts "postgres") registeredState.

(** The states the three functions work on: the package data reads as
    initialised, the collection holds pointers to chart cells, and none
    of them is a chart of the package data. *)
Definition wellFormed (s : State) : Prop :=
  tmplIntact s ∧ baseIntact s ∧
  validCharts s (p_charts s) ∧
  Forall (λ p, p ∉ dbChartsTmpl ++ baseCharts) (p_charts s).

(** ** Further vocabulary *)

(** A name without [_]. *)
Fixpoint noUnderscore (s : string) : bool :=
  match s with
  | EmptyString => true
  | String c rest => negb (bool_decide (c = "_"%char)) && noUnderscore rest
  end.

(** The suffixes of a string, the string itself first; and those
    shorter than the string. *)
Fixpoint tails (s : string) : list string :=
  s :: match s with
       | EmptyString => []
       | String _ rest => tails rest
       end.

Definition properTails (s : string) : list string :=
  match s with
  | EmptyString => []
  | String _ rest => tails rest
  end.

(** No text of [l] is the end of a longer text of [l]. *)
Definition suffixFree (l : list string) : bool :=
  forallb (λ y, forallb (λ x, negb (bool_decide (x ∈ properTails y))) l) l.

(** The pairs of template suffixes [(a, b)] where [b] continues [a]
    with [_]. *)
Definition shadowedSuffixes : list (string * string) :=
  filter (λ ab, String.prefix (ab.1 +:+ "_") ab.2 = true)
         (list_prod dbChartSuffixes dbChartSuffixes).

(** The state once the charts of the databases [ds] are registered, one
    after the other, starting from the initialised package. *)
Definition registeredStateFor (ds : list string) : State :=
  foldl (λ s d, stateAfter (addNewDatabaseCharts d) s) initState ds.

(** The IDs of the charts of [baseCharts], and the IDs that a
    collection made of copies of [baseCharts] and of the charts of the
    databases [ds] can hold. *)
Definition knownChartIDs (ds : list string) : list string :=
  map ID baseChartsLits ++ flat_map databaseChartIDs ds.

(** The dimension IDs of a list of charts, chart after chart; the text
    after the placeholder of each template dimension ID. *)
Definition dimIDs (vs : list ChartLit) : list string :=
  flat_map (λ v, map Dim.ID (Dims v)) vs.

Definition dbDimSuffixes : list string :=
  omap (λ f, snd <$> cut f) (dimIDs dbChartsTmplLits).

(** ** Vocabulary for the checks of [Charts.Add] *)

(** Whether [range] over the string meets a white-space rune. *)
Definition hasSpace (s : string) : bool := existsb IsSpace (rangeRunes 0 s).

(** An ASCII byte that is no white space; a text of such bytes; a
    template text after the placeholder: such a text, not empty. *)
Definition plainByte (c : ascii) : bool :=
  (N_of_ascii c <? 0x80)%N && negb (IsSpace (N_of_ascii c)).

Fixpoint plainText (s : string) : bool :=
  match s with
  | EmptyString => true
  | String c rest => plainByte c && plainText rest
  end.

Definition plainSuffix (s : string) : bool :=
  negb (bool_decide (s = "")) && plainText s.

(** [addNewDatabaseCharts(d)] from [s] registers all the charts it
    instantiates: they are 14 and the collection ends with them. *)
Definition registersAll (d : string) (s : State) : Prop :=
  ∃ charts s1 s2,
    newDatabaseCharts d s = Ok charts s1 ∧
    addNewDatabaseCharts d s = Ok tt s2 ∧
    length charts = 14 ∧
    p_charts s2 = p_charts s ++ charts.

Definition registersAllb (d : string) (s : State) : bool :=
  match newDatabaseCharts d s, addNewDatabaseCharts d s with
  | Ok charts _, Ok _ s2 => bool_decide (p_charts s2 = p_charts s ++ charts)
  | _, _ => false
  end.

(** Every registered chart with an ID generated for [d] is marked for
    removal. *)
Definition noLiveConflict (d : string) (s : State) : Prop :=
  Forall (λ p, idAt s p ∈ databaseChartIDs d → removeAt s p = Some true)
         (p_charts s).

(** ** The format model on small inputs *)

Example Sprintf_s : Sprintf "db_%s_size" ["postgres"] = "db_postgres_size".
Proof. reflexivity. Qed.
Example Sprintf_pct : Sprintf "db_%s_size" ["50%s"] = "db_50%s_size".
Proof. reflexivity. Qed.
Example Sprintf_missing : Sprintf "a%sb%sc" ["x"] = "axb%!s(MISSING)c".
Proof. reflexivity. Qed.
Example Sprintf_extra : Sprintf "abc" ["x"; "y"] = "abc%!(EXTRA string=x, string=y)".
Proof. reflexivity. Qed.
Example Sprintf_bad : Sprintf "a%d" ["x"] = "a%!d(string=x)".
Proof. reflexivity. Qed.
Example Sprintf_noverb : Sprintf "a%" ["x"] = "a%!(NOVERB)%!(EXTRA string=x)".
Proof. reflexivity. Qed.


(** ** The monad and the store *)

Lemma bind_Ok {A B} (m : M A) (k : A → M B) s a s' :
  m s = Ok a s' → bind m k s = k a s'.
Proof. intros H. unfold bind. by rewrite H. Qed.

Lemma bind_assoc {A B C} (m : M A) (k : A → M B) (k' : B → M C) s :
  bind (bind m k) k' s = bind m (λ a, bind (k a) k') s.
Proof. unfold bind. by destruct (m s). Qed.

Lemma insert_middle {A} (l1 l2 : list A) (x y : A) :
  <[length l1 := y]> (l1 ++ x :: l2) = l1 ++ y :: l2.
Proof.
  replace (length l1) with (length l1 + 0) by lia.
  by rewrite insert_app_r.
Qed.

Lemma loadChart_Some s p c :
  chartsH s !! p = Some c → loadChart p s = Ok c s.
Proof. intros H. unfold loadChart. by rewrite H. Qed.

Lemma modifyChart_Some s p c f :
  chartsH s !! p = Some c →
  modifyChart p f s = Ok tt (withStore (<[p := f c]> (chartsH s)) (dimsH s) s).
Proof.
  intros H. unfold modifyChart.
  rewrite (bind_Ok _ _ _ _ _ (loadChart_Some _ _ _ H)).
  unfold storeChart. by rewrite H.
Qed.

Lemma modifyDim_Some s p d f :
  dimsH s !! p = Some d →
  modifyDim p f s = Ok tt (withStore (chartsH s) (<[p := f d]> (dimsH s)) s).
Proof.
  intros H. unfold modifyDim, bind, loadDim, storeDim. by rewrite H, H.
Qed.

(** Cells are only ever appended or overwritten in place: a view that
    reads in [s] reads the same once cells have been appended. *)
Lemma viewDims_frame s s' ps ds more :
  dimsH s' = dimsH s ++ more →
  viewDims s ps = Some ds → viewDims s' ps = Some ds.
Proof.
  intros Hd. unfold viewDims. rewrite !mapM_Some.
  induction 1; constructor; auto.
  rewrite Hd. by apply lookup_app_l_Some.
Qed.

Lemma viewChart_frame s s' p v moreC moreD :
  chartsH s' = chartsH s ++ moreC →
  dimsH s' = dimsH s ++ moreD →
  viewChart s p = Some v → viewChart s' p = Some v.
Proof.
  intros Hc Hd. unfold viewChart.
  destruct (chartsH s !! p) as [c|] eqn:E; [|done]. simpl.
  rewrite Hc, (lookup_app_l_Some _ _ _ _ E). simpl.
  destruct (viewDims s (Dims c)) as [ds|] eqn:E'; [|done]. simpl.
  by rewrite (viewDims_frame _ _ _ _ _ Hd E').
Qed.

Lemma viewCharts_frame s s' ps vs moreC moreD :
  chartsH s' = chartsH s ++ moreC →
  dimsH s' = dimsH s ++ moreD →
  viewCharts s ps = Some vs → viewCharts s' ps = Some vs.
Proof.
  intros Hc Hd. unfold viewCharts. rewrite !mapM_Some.
  induction 1; constructor; eauto using viewChart_frame.
Qed.

Lemma viewDims_cons s p ps ds :
  viewDims s (p :: ps) = Some ds →
  ∃ d ds', ds = d :: ds' ∧ dimsH s !! p = Some d ∧ viewDims s ps = Some ds'.
Proof.
  unfold viewDims. rewrite mapM_Some. intros H.
  inversion H as [|? d ? ds' Hp Hps]; subst.
  exists d, ds'. by rewrite mapM_Some.
Qed.

Lemma viewCharts_cons s p ps vs :
  viewCharts s (p :: ps) = Some vs →
  ∃ v vs', vs = v :: vs' ∧ viewChart s p = Some v ∧ viewCharts s ps = Some vs'.
Proof.
  unfold viewCharts. rewrite mapM_Some. intros H.
  inversion H as [|? v ? vs' Hp Hps]; subst.
  exists v, vs'. by rewrite mapM_Some.
Qed.

Lemma viewChart_inv s p v :
  viewChart s p = Some v →
  ∃ c, chartsH s !! p = Some c ∧ viewDims s (Dims c) = Some (Dims v)
       ∧ v = set_Dims (Dims v) c.
Proof.
  unfold viewChart. intros H.
  destruct (chartsH s !! p) as [c|]; [|done]. simpl in H.
  destruct (viewDims s (Dims c)) as [ds|] eqn:E; [|done]. simpl in H.
  injection H as <-. exists c. simpl. auto.
Qed.

Lemma viewDims_length s ps ds : viewDims s ps = Some ds → length ds = length ps.
Proof.
  unfold viewDims. rewrite mapM_Some. intros H.
  symmetry. by eapply Forall2_length.
Qed.

Lemma viewCharts_length s ps vs : viewCharts s ps = Some vs → length vs = length ps.
Proof.
  unfold viewCharts. rewrite mapM_Some. intros H.
  symmetry. by eapply Forall2_length.
Qed.

(** *** Copies *)

Lemma collect_Dim_copy ps : ∀ ds s,
  viewDims s ps = Some ds →
  collect Dim_copy ps s
  = Ok (seq (length (dimsH s)) (length ds))
       (withStore (chartsH s) (dimsH s ++ ds) s).
Proof.
  induction ps as [|p ps IH]; intros ds s H.
  - injection H as <-. simpl. unfold ret, withStore.
    rewrite app_nil_r. by destruct s.
  - apply viewDims_cons in H as (d & ds' & -> & Hp & Hps).
    simpl.
    set (s1 := withStore (chartsH s) (dimsH s ++ [d]) s).
    assert (H1 : Dim_copy p s = Ok (length (dimsH s)) s1).
    { unfold Dim_copy, bind, loadDim. by rewrite Hp. }
    rewrite (bind_Ok _ _ _ _ _ H1).
    assert (H2 : viewDims s1 ps = Some ds') by (by eapply viewDims_frame).
    rewrite (bind_Ok _ _ _ _ _ (IH _ _ H2)).
    unfold ret, withStore, s1; simpl.
    rewrite length_app, <- app_assoc. simpl.
    by replace (length (dimsH s) + 1) with (S (length (dimsH s))) by lia.
Qed.

Lemma Chart_Copy_run c ds s :
  viewDims s (Dims c) = Some ds →
  Chart_Copy c s
  = Ok (length (chartsH s))
       (withStore
          (chartsH s ++ [set_Dims (seq (length (dimsH s)) (length ds)) c])
          (dimsH s ++ ds) s).
Proof.
  intros H. unfold Chart_Copy.
  by rewrite (bind_Ok _ _ _ _ _ (collect_Dim_copy _ _ _ H)).
Qed.

Lemma set_Dims_set_Dims {D E F} (c : Chart_ D) (ds : list E) (ps : list F) :
  set_Dims ps (set_Dims ds c) = set_Dims ps c.
Proof. done. Qed.

Lemma Charts_Copy_run ps : ∀ vs s,
  viewCharts s ps = Some vs →
  Charts_Copy ps s
  = Ok (seq (length (chartsH s)) (length vs))
       (withStore (chartsH s ++ layout (length (dimsH s)) vs)
                  (dimsH s ++ allDims vs) s).
Proof.
  unfold Charts_Copy.
  induction ps as [|p ps IH]; intros vs s H.
  - injection H as <-. simpl. unfold ret, withStore, allDims. simpl.
    rewrite !app_nil_r. by destruct s.
  - apply viewCharts_cons in H as (v & vs' & -> & Hp & Hps).
    apply viewChart_inv in Hp as Hp'. destruct Hp' as (c & Hc & Hds & Hv).
    simpl.
    set (cell := set_Dims (seq (length (dimsH s)) (length (Dims v))) c).
    set (s1 := withStore (chartsH s ++ [cell]) (dimsH s ++ Dims v) s).
    assert (H1 : (let* v0 := loadChart p in Chart_Copy v0) s
                 = Ok (length (chartsH s)) s1).
    { rewrite (bind_Ok _ _ _ _ _ (loadChart_Some _ _ _ Hc)).
      by rewrite (Chart_Copy_run _ _ _ Hds). }
    rewrite (bind_Ok _ _ _ _ _ H1).
    assert (H2 : viewCharts s1 ps = Some vs')
      by (by eapply viewCharts_frame).
    rewrite (bind_Ok _ _ _ _ _ (IH _ _ H2)).
    unfold ret, withStore, s1, allDims; simpl.
    rewrite !length_app, <- !app_assoc. simpl.
    replace (length (chartsH s) + 1) with (S (length (chartsH s))) by lia.
    do 3 f_equal. f_equal. subst cell. rewrite Hv at 3. done.
Qed.

(** *** The loops of [newDatabaseCharts] *)

Lemma forEach_modifyDim f ds : ∀ dpre dpost s,
  dimsH s = dpre ++ ds ++ dpost →
  forEach (seq (length dpre) (length ds)) (λ d, modifyDim d f) s
  = Ok tt (withStore (chartsH s) (dpre ++ map f ds ++ dpost) s).
Proof.
  induction ds as [|d ds IH]; intros dpre dpost s H.
  - simpl. unfold ret, withStore. simpl in H. rewrite <- H. by destruct s.
  - simpl.
    assert (Hd : dimsH s !! length dpre = Some d)
      by (rewrite H; by apply list_lookup_middle).
    rewrite (bind_Ok _ _ _ _ _ (modifyDim_Some _ _ _ f Hd)).
    rewrite H. simpl. rewrite insert_middle.
    specialize (IH (dpre ++ [f d]) dpost
                  (withStore (chartsH s) (dpre ++ f d :: ds ++ dpost) s)).
    rewrite length_app in IH. simpl in IH.
    replace (length dpre + 1) with (S (length dpre)) in IH by lia.
    rewrite IH.
    + unfold withStore. simpl. by rewrite <- app_assoc.
    + simpl. by rewrite <- app_assoc.
Qed.

Lemma viewDims_seq s dpre ds dpost :
  dimsH s = dpre ++ ds ++ dpost →
  viewDims s (seq (length dpre) (length ds)) = Some ds.
Proof.
  intros H. unfold viewDims. rewrite mapM_Some.
  revert dpre H. induction ds as [|d ds IH]; intros dpre H; simpl.
  - constructor.
  - constructor.
    + rewrite H. by apply list_lookup_middle.
    + specialize (IH (dpre ++ [d])). rewrite length_app in IH. simpl in IH.
      replace (length dpre + 1) with (S (length dpre)) in IH by lia.
      apply IH. rewrite H. by rewrite <- app_assoc.
Qed.

Lemma stamp_layout dbname base v :
  set_Dims (seq base (length (Dims (stamp dbname v)))) (stamp dbname v)
  = set_Labels [ {| Key := "database"; Value := dbname |} ]
      (set_ID (Sprintf (ID v) [dbname])
         (set_Dims (seq base (length (Dims v))) v)).
Proof. unfold stamp, set_Dims, set_Labels, set_ID. simpl. by rewrite length_map. Qed.

Lemma stamp_loop dbname vs : ∀ cpre dpre s,
  chartsH s = cpre ++ layout (length dpre) vs →
  dimsH s = dpre ++ allDims vs →
  forEach (seq (length cpre) (length vs)) (λ c,
    modifyChart c (λ v, set_ID (Sprintf (ID v) [dbname]) v) ;;;
    modifyChart c (set_Labels [ {| Key := "database"; Value := dbname |} ]) ;;;
    let* v := loadChart c in
    forEach (Dims v) (λ d,
      modifyDim d (λ w, Dim.set_ID (Sprintf (Dim.ID w) [dbname]) w))) s
  = Ok tt (withStore (cpre ++ layout (length dpre) (map (stamp dbname) vs))
                     (dpre ++ allDims (map (stamp dbname) vs)) s).
Proof.
  induction vs as [|v vs IH]; intros cpre dpre s Hc Hd.
  - simpl in *. unfold ret, withStore. rewrite <- Hc, <- Hd. by destruct s.
  - simpl in Hc. unfold allDims in Hd. simpl in Hd.
    cbn [length seq forEach].
    set (rest := layout (length dpre + length (Dims v)) vs) in *.
    set (cell := set_Dims (seq (length dpre) (length (Dims v))) v) in *.
    set (cell1 := set_ID (Sprintf (ID cell) [dbname]) cell).
    set (cell2 := set_Labels [ {| Key := "database"; Value := dbname |} ] cell1).
    set (s1 := withStore (cpre ++ cell1 :: rest) (dimsH s) s).
    set (s2 := withStore (cpre ++ cell2 :: rest) (dimsH s) s).
    set (s3 := withStore (cpre ++ cell2 :: rest)
                 (dpre ++ map (stampDim dbname) (Dims v) ++ allDims vs) s).
    assert (E1 : modifyChart (length cpre)
                   (λ v, set_ID (Sprintf (ID v) [dbname]) v) s = Ok tt s1).
    { erewrite modifyChart_Some by (rewrite Hc; by apply list_lookup_middle).
      by rewrite Hc, insert_middle. }
    assert (E2 : modifyChart (length cpre)
                   (set_Labels [ {| Key := "database"; Value := dbname |} ]) s1
                 = Ok tt s2).
    { erewrite modifyChart_Some by (by apply list_lookup_middle).
      unfold s1, s2, withStore. simpl. by rewrite insert_middle. }
    assert (E3 : loadChart (length cpre) s2 = Ok cell2 s2).
    { apply loadChart_Some. by apply list_lookup_middle. }
    assert (E4 : forEach (Dims cell2) (λ d,
                   modifyDim d (λ w, Dim.set_ID (Sprintf (Dim.ID w) [dbname]) w)) s2
                 = Ok tt s3).
    { change (Dims cell2) with (seq (length dpre) (length (Dims v))).
      by erewrite forEach_modifyDim by exact Hd. }
    rewrite !bind_assoc, (bind_Ok _ _ _ _ _ E1).
    rewrite !bind_assoc, (bind_Ok _ _ _ _ _ E2).
    rewrite !bind_assoc, (bind_Ok _ _ _ _ _ E3).
    rewrite (bind_Ok _ _ _ _ _ E4).
    specialize (IH (cpre ++ [cell2]) (dpre ++ map (stampDim dbname) (Dims v)) s3).
    rewrite !length_app, length_map in IH. simpl in IH.
    replace (length cpre + 1) with (S (length cpre)) in IH by lia.
    rewrite IH.
    + unfold withStore, s3, allDims. simpl.
      rewrite <- !app_assoc. simpl.
      rewrite length_map. do 3 f_equal.
    + unfold s3. simpl. by rewrite <- app_assoc.
    + unfold s3. simpl. by rewrite <- app_assoc.
Qed.

Lemma viewCharts_layout s vs : ∀ cpre dpre,
  chartsH s = cpre ++ layout (length dpre) vs →
  dimsH s = dpre ++ allDims vs →
  viewCharts s (seq (length cpre) (length vs)) = Some vs.
Proof.
  unfold viewCharts.
  induction vs as [|v vs IH]; intros cpre dpre Hc Hd; [done|].
  rewrite mapM_Some. simpl. constructor.
  - unfold viewChart. simpl in Hc. rewrite Hc, list_lookup_middle by done.
    simpl. unfold allDims in Hd. simpl in Hd.
    rewrite (viewDims_seq _ _ _ _ Hd). simpl. by destruct v.
  - rewrite <- mapM_Some.
    specialize (IH (cpre ++ [set_Dims (seq (length dpre) (length (Dims v))) v])
                  (dpre ++ Dims v)).
    rewrite !length_app in IH. simpl in IH.
    replace (length cpre + 1) with (S (length cpre)) in IH by lia.
    apply IH.
    + rewrite Hc. simpl. by rewrite <- app_assoc.
    + rewrite Hd. unfold allDims. simpl. by rewrite <- app_assoc.
Qed.

(** [newDatabaseCharts] on any store in which the template reads as
    [tv]: the new chart cells and dimension cells are appended, stamped
    with the database name; nothing else changes. *)
Lemma newDatabaseCharts_run dbname s tv :
  viewCharts s dbChartsTmpl = Some tv →
  newDatabaseCharts dbname s
  = Ok (seq (length (chartsH s)) (length tv))
       (withStore
          (chartsH s ++ layout (length (dimsH s)) (map (stamp dbname) tv))
          (dimsH s ++ allDims (map (stamp dbname) tv)) s).
Proof.
  intros H. unfold newDatabaseCharts.
  rewrite (bind_Ok _ _ _ _ _ (Charts_Copy_run _ _ _ H)).
  set (s1 := withStore _ _ s).
  rewrite (bind_Ok _ _ _ _ _
             (stamp_loop dbname tv (chartsH s) (dimsH s) s1 eq_refl eq_refl)).
  done.
Qed.

(** *** The loop of [removeDatabaseCharts] *)

Lemma mark_ID c : ID (mark c) = ID c.
Proof. done. Qed.

Lemma mark_mark c : mark (mark c) = mark c.
Proof. done. Qed.

Lemma markCell_nil prefix i c : markCell prefix [] i c = c.
Proof.
  unfold markCell. rewrite bool_decide_eq_false_2; [done|]. apply not_elem_of_nil.
Qed.

Lemma lookup_markStore prefix ps h i :
  markStore prefix ps h !! i = markCell prefix ps i <$> h !! i.
Proof. apply list_lookup_imap. Qed.

Lemma length_markStore prefix ps h : length (markStore prefix ps h) = length h.
Proof. apply length_imap. Qed.

Lemma markStore_nil prefix h : markStore prefix [] h = h.
Proof.
  apply list_eq. intros i. rewrite lookup_markStore.
  destruct (h !! i); simpl; [|done]. by rewrite markCell_nil.
Qed.

(** One more pointer in front of the collection: its cell is marked
    first, the cells of the others afterwards. *)
Lemma markStore_cons prefix p ps h c :
  h !! p = Some c →
  markStore prefix ps
    (if HasPrefix (ID c) prefix then <[p := mark c]> h else h)
  = markStore prefix (p :: ps) h.
Proof.
  intros Hp. apply list_eq. intros i. rewrite !lookup_markStore.
  destruct (decide (i = p)) as [->|Hne].
  - rewrite Hp. simpl. unfold markCell at 2.
    rewrite (bool_decide_eq_true_2 (p ∈ p :: ps)) by apply list_elem_of_here.
    simpl. destruct (HasPrefix (ID c) prefix) eqn:E.
    + rewrite list_lookup_insert_eq by (by eapply lookup_lt_Some). simpl.
      unfold markCell. rewrite mark_ID, E, mark_mark.
      by destruct (bool_decide (p ∈ ps)).
    + rewrite Hp. simpl. unfold markCell. rewrite E.
      by rewrite andb_false_r.
  - assert (Hi : (if HasPrefix (ID c) prefix then <[p := mark c]> h else h) !! i
                 = h !! i).
    { destruct (HasPrefix (ID c) prefix); [|done].
      by apply list_lookup_insert_ne. }
    rewrite Hi. destruct (h !! i) as [c'|]; simpl; [|done].
    unfold markCell.
    assert (Hb : bool_decide (i ∈ ps) = bool_decide (i ∈ p :: ps)).
    { apply bool_decide_ext. rewrite elem_of_cons. intuition congruence. }
    by rewrite Hb.
Qed.

Lemma validCharts_insert s ps h :
  length h = length (chartsH s) →
  validCharts s ps → validCharts (withStore h (dimsH s) s) ps.
Proof.
  unfold validCharts. intros Hl H. eapply Forall_impl; [exact H|].
  intros p [c Hc]. simpl.
  apply lookup_lt_is_Some. rewrite Hl. by eapply lookup_lt_Some.
Qed.

Lemma mark_loop prefix ps : ∀ s,
  validCharts s ps →
  forEach ps (λ c,
    let* v := loadChart c in
    if HasPrefix (ID v) prefix then MarkRemove c ;;; MarkNotCreated c
    else ret tt) s
  = Ok tt (withStore (markStore prefix ps (chartsH s)) (dimsH s) s).
Proof.
  induction ps as [|p ps IH]; intros s Hv.
  - simpl. unfold ret, withStore. rewrite markStore_nil. by destruct s.
  - apply Forall_cons in Hv as [[c Hc] Hv].
    cbn [forEach].
    set (h1 := if HasPrefix (ID c) prefix
               then <[p := mark c]> (chartsH s) else chartsH s).
    assert (E : (let* v := loadChart p in
                 if HasPrefix (ID v) prefix then MarkRemove p ;;; MarkNotCreated p
                 else ret tt) s = Ok tt (withStore h1 (dimsH s) s)).
    { rewrite (bind_Ok _ _ _ _ _ (loadChart_Some _ _ _ Hc)).
      subst h1. destruct (HasPrefix (ID c) prefix).
      - unfold MarkRemove, MarkNotCreated.
        rewrite (bind_Ok _ _ _ _ _ (modifyChart_Some _ _ _ _ Hc)).
        erewrite modifyChart_Some
          by (simpl; apply list_lookup_insert_eq; by eapply lookup_lt_Some).
        unfold withStore. simpl. by rewrite list_insert_insert_eq.
      - unfold ret, withStore. by destruct s. }
    rewrite (bind_Ok _ _ _ _ _ E), IH.
    + unfold withStore. simpl. subst h1. by rewrite (markStore_cons _ _ _ _ _ Hc).
    + apply validCharts_insert; [|done].
      subst h1. destruct (HasPrefix (ID c) prefix); [|done].
      apply length_insert.
Qed.

Lemma append_prefix p r : String.prefix p (p +:+ r) = true.
Proof.
  induction p as [|a p IH]; simpl; [by destruct r|].
  destruct (ascii_dec a a); [done|congruence].
Qed.

Lemma Sprintf_prefix dbname :
  Sprintf "db_%s_" [dbname] = "db_" +:+ dbname +:+ "_".
Proof. reflexivity. Qed.

Lemma removeDatabaseCharts_run dbname s :
  validCharts s (p_charts s) →
  removeDatabaseCharts dbname s
  = Ok tt (withStore
             (markStore ("db_" +:+ dbname +:+ "_") (p_charts s) (chartsH s))
             (dimsH s) s).
Proof.
  intros Hv. unfold removeDatabaseCharts. rewrite Sprintf_prefix.
  unfold bind at 1. unfold getCharts. by apply mark_loop.
Qed.

(** *** [Charts.Add] *)

Lemma idAt_Some s p c : chartsH s !! p = Some c → idAt s p = ID c.
Proof. intros H. unfold idAt. by rewrite H. Qed.

Lemma checkDim_run s d w :
  dimsH s !! d = Some w → checkDim d s = Ok (checkDimLit w) s.
Proof.
  intros H. unfold checkDim, checkDimLit, bind, loadDim. rewrite H.
  destruct (bool_decide (Dim.ID w = "")); [reflexivity|].
  destruct (bool_decide (checkID (Dim.ID w) ≠ (-1)%Z)); reflexivity.
Qed.

Lemma checkDims_run s ds : ∀ ws set,
  viewDims s ds = Some ws →
  checkDims ds set s = Ok (checkDimsLit ws set) s.
Proof.
  induction ds as [|d ds IH]; intros ws set H.
  - injection H as <-. reflexivity.
  - apply viewDims_cons in H as (w & ws' & -> & Hd & Hds).
    cbn [checkDims checkDimsLit].
    rewrite (bind_Ok _ _ _ _ _ (checkDim_run _ _ _ Hd)).
    destruct (checkDimLit w); [reflexivity|].
    unfold bind at 1, loadDim. rewrite Hd.
    destruct (bool_decide (Dim.ID w ∈ set)); [reflexivity|].
    exact (IH _ _ Hds).
Qed.

Lemma checkChart_run s p v :
  viewChart s p = Some v → checkChart p s = Ok (checkChartLit v) s.
Proof.
  intros H. apply viewChart_inv in H as (c & Hc & Hds & Hv).
  unfold checkChart. rewrite (bind_Ok _ _ _ _ _ (loadChart_Some _ _ _ Hc)).
  unfold checkChartLit. rewrite Hv. cbn [set_Dims ID Title Units Dims].
  destruct (bool_decide (ID c = "")); [reflexivity|].
  destruct (bool_decide (Title c = "")); [reflexivity|].
  destruct (bool_decide (Units c = "")); [reflexivity|].
  destruct (bool_decide (checkID (ID c) ≠ (-1)%Z)); [reflexivity|].
  exact (checkDims_run _ _ _ _ Hds).
Qed.

Lemma Charts_Get_run id c : ∀ s,
  validCharts s c → Charts_Get c id s = Ok (firstWithID s c id) s.
Proof.
  induction c as [|p c IH]; intros s Hv; [reflexivity|].
  apply Forall_cons in Hv as [[v Hp] Hv]. cbn [Charts_Get firstWithID].
  rewrite (bind_Ok _ _ _ _ _ (loadChart_Some _ _ _ Hp)).
  rewrite (idAt_Some _ _ _ Hp).
  destruct (bool_decide (ID v = id)); [reflexivity|]. exact (IH _ Hv).
Qed.

Lemma firstWithID_Some s reg id q :
  firstWithID s reg id = Some q → q ∈ reg ∧ idAt s q = id.
Proof.
  induction reg as [|p reg IH]; [discriminate|]. cbn [firstWithID].
  destruct (decide (idAt s p = id)) as [E|E].
  - rewrite bool_decide_eq_true_2 by exact E. intros [= <-].
    split; [apply list_elem_of_here|exact E].
  - rewrite bool_decide_eq_false_2 by exact E. intros H.
    destruct (IH H) as [Hin Hid]. split; [by apply list_elem_of_further|exact Hid].
Qed.

Lemma firstWithID_None s reg id :
  id ∉ map (idAt s) reg → firstWithID s reg id = None.
Proof.
  induction reg as [|p reg IH]; [reflexivity|]. cbn [firstWithID map].
  intros H. rewrite bool_decide_eq_false_2.
  - apply IH. intros Hin. apply H. by apply list_elem_of_further.
  - intros E. apply H. rewrite E. apply list_elem_of_here.
Qed.

Lemma firstWithID_app s reg c id :
  firstWithID s (reg ++ [c]) id
  = match firstWithID s reg id with
    | Some q => Some q
    | None => if bool_decide (idAt s c = id) then Some c else None
    end.
Proof.
  induction reg as [|p reg IH]; [reflexivity|]. cbn [app firstWithID].
  destruct (bool_decide (idAt s p = id)); [reflexivity|exact IH].
Qed.

Lemma liveID_app_ne s reg c id :
  idAt s c ≠ id → liveID s (reg ++ [c]) id = liveID s reg id.
Proof.
  intros H. unfold liveID. rewrite firstWithID_app.
  destruct (firstWithID s reg id); [reflexivity|].
  by rewrite bool_decide_eq_false_2.
Qed.

(** The live check of [Charts.Add]: the first chart with the ID, and
    its removal mark. *)
Lemma liveID_run s id :
  validCharts s (p_charts s) →
  (let* found := Charts_Get (p_charts s) id in
   match found with
   | Some q => let* w := loadChart q in ret (negb (remove w))
   | None => ret false
   end) s
  = Ok (liveID s (p_charts s) id) s.
Proof.
  intros Hv. rewrite (bind_Ok _ _ _ _ _ (Charts_Get_run id _ _ Hv)).
  unfold liveID. destruct (firstWithID s (p_charts s) id) as [q|] eqn:E;
    [|reflexivity].
  apply firstWithID_Some in E as [Hq _].
  unfold validCharts in Hv. rewrite Forall_forall in Hv.
  destruct (Hv q Hq) as [w Hw].
  rewrite (bind_Ok _ _ _ _ _ (loadChart_Some _ _ _ Hw)). by rewrite Hw.
Qed.

Lemma addPure_store s s' new : ∀ reg,
  chartsH s' = chartsH s → dimsH s' = dimsH s →
  addPure s' reg new = addPure s reg new.
Proof.
  intros reg HC HD. revert reg.
  assert (Hview : ∀ p, viewChart s' p = viewChart s p).
  { intros p. unfold viewChart, viewDims. rewrite HC, HD. reflexivity. }
  assert (Hfirst : ∀ reg id, firstWithID s' reg id = firstWithID s reg id).
  { intros reg id. induction reg as [|p reg IH]; [reflexivity|].
    cbn [firstWithID]. unfold idAt. rewrite HC, IH. reflexivity. }
  induction new as [|c new IH]; intros reg; [reflexivity|].
  cbn [addPure]. rewrite Hview. destruct (viewChart s c) as [v|]; [|reflexivity].
  destruct (checkChartLit v); [reflexivity|].
  unfold liveID. rewrite Hfirst, HC.
  destruct (match firstWithID s reg (ID v) with
            | Some q => from_option (λ w, negb (remove w)) false (chartsH s !! q)
            | None => false
            end); [reflexivity|apply IH].
Qed.

Lemma Charts_Add_run new : ∀ s vs,
  validCharts s (p_charts s) → viewCharts s new = Some vs →
  Charts_Add new s
  = Ok (addPure s (p_charts s) new).1
       (withCharts (addPure s (p_charts s) new).2 s).
Proof.
  induction new as [|p new IH]; intros s vs Hreg Hnew.
  - cbn. unfold ret, withCharts. by destruct s.
  - apply viewCharts_cons in Hnew as (v & vs' & -> & Hp & Hnew).
    apply viewChart_inv in Hp as Hp'. destruct Hp' as (c & Hc & _ & Hv).
    assert (Hid : ID c = ID v) by (by rewrite Hv).
    cbn [Charts_Add addPure]. rewrite Hp.
    rewrite (bind_Ok _ _ _ _ _ (checkChart_run _ _ _ Hp)).
    rewrite (bind_Ok _ _ _ _ _ (loadChart_Some _ _ _ Hc)). rewrite Hid.
    destruct (checkChartLit v);
      [unfold ret, withCharts; cbn; by destruct s|].
    unfold bind at 1. unfold getCharts.
    rewrite <- bind_assoc.
    rewrite (bind_Ok _ _ _ _ _ (liveID_run s (ID v) Hreg)).
    destruct (liveID s (p_charts s) (ID v));
      [unfold ret, withCharts; cbn; by destruct s|].
    unfold bind at 1. unfold appendChart.
    set (s' := mkState _ _ _ _).
    rewrite (IH s' vs').
    + rewrite (addPure_store s s') by reflexivity. reflexivity.
    + apply Forall_app. split; [exact Hreg|].
      constructor; [by exists c|constructor].
    + exact Hnew.
Qed.

Lemma addPure_fresh s new : ∀ vs reg,
  viewCharts s new = Some vs →
  Forall (λ v, checkChartLit v = None) vs →
  NoDup (map ID vs) →
  Forall (λ v, liveID s reg (ID v) = false) vs →
  addPure s reg new = (None, reg ++ new).
Proof.
  induction new as [|c new IH]; intros vs reg Hview Hok Hnd Hlive.
  - cbn. by rewrite app_nil_r.
  - apply viewCharts_cons in Hview as (v & vs' & -> & Hc & Hview).
    apply Forall_cons in Hok as [Hv Hok].
    apply Forall_cons in Hlive as [Hl Hlive].
    cbn [map] in Hnd. apply NoDup_cons in Hnd as [Hfresh Hnd].
    cbn [addPure]. rewrite Hc, Hv, Hl.
    rewrite (IH vs' (reg ++ [c]) Hview Hok Hnd); [by rewrite <- app_assoc|].
    rewrite Forall_forall in Hlive. apply Forall_forall. intros v' Hv'.
    rewrite liveID_app_ne; [exact (Hlive _ Hv')|].
    apply viewChart_inv in Hc as (c0 & Hc0 & _ & Hv0).
    rewrite (idAt_Some _ _ _ Hc0).
    assert (Hid : ID c0 = ID v) by (by rewrite Hv0). rewrite Hid.
    intros E. apply Hfresh. rewrite E.
    change (ID v' ∈ ID <$> vs'). by apply list_elem_of_fmap_2.
Qed.

(** Whatever the outcome, the collection keeps its charts, in order,
    and gains only charts of the call, in order. *)
Lemma addPure_grows s new : ∀ reg,
  ∃ k, (addPure s reg new).2 = reg ++ take k new.
Proof.
  induction new as [|c new IH]; intros reg; cbn [addPure].
  - exists 0. by rewrite app_nil_r.
  - destruct (viewChart s c) as [v|]; [|exists 0; by rewrite app_nil_r].
    destruct (checkChartLit v); [exists 0; by rewrite app_nil_r|].
    destruct (liveID s reg (ID v)); [exists 0; by rewrite app_nil_r|].
    destruct (IH (reg ++ [c])) as [k Hk]. exists (S k).
    rewrite Hk. by rewrite <- app_assoc.
Qed.

(** ** Formats *)

Lemma doPrintf_noPercent s : noPercent s = true → doPrintf s [] = s.
Proof.
  induction s as [|c s IH]; simpl; [done|].
  destruct (bool_decide (c = "%"%char)); simpl; [done|].
  intros H. by rewrite IH.
Qed.

Lemma substPlaceholder_noPercent d s :
  noPercent s = true → substPlaceholder d s = s.
Proof.
  induction s as [|c s IH]; simpl; [done|].
  destruct (bool_decide (c = "%"%char)); simpl; [done|].
  intros H. destruct s; [done|]. by rewrite IH.
Qed.

Lemma verbs_noPercent s : noPercent s = true → verbs s = [].
Proof.
  induction s as [|c s IH]; simpl; [done|].
  destruct (bool_decide (c = "%"%char)); simpl; [done|]. auto.
Qed.

Lemma cut_inv c rest pre post :
  cut (String c rest) = Some (pre, post) →
  (c = "%"%char ∧ pre = EmptyString ∧ rest = String "s" post
   ∧ noPercent post = true)
  ∨ (c ≠ "%"%char ∧ ∃ pre', pre = String c pre' ∧ cut rest = Some (pre', post)).
Proof.
  simpl. destruct (decide (c = "%"%char)) as [->|Hne].
  - rewrite bool_decide_eq_true_2 by done.
    destruct rest as [|v post']; [done|].
    destruct (decide (v = "s"%char)) as [->|Hv].
    + rewrite bool_decide_eq_true_2 by done. simpl.
      destruct (noPercent post') eqn:E; [|done].
      intros [= <- <-]. left. auto.
    + by rewrite bool_decide_eq_false_2 by done.
  - rewrite bool_decide_eq_false_2 by done.
    destruct (cut rest) as [[pre' post']|]; [|done].
    intros [= <- <-]. right. eauto.
Qed.

(** A format that [cut] splits is the text before, [%s], the text
    after, and neither text has a [%]. *)
Lemma cut_spec f : ∀ pre post,
  cut f = Some (pre, post) →
  f = pre +:+ "%s" +:+ post ∧ noPercent pre = true ∧ noPercent post = true.
Proof.
  induction f as [|c f IH]; intros pre post H; [done|].
  apply cut_inv in H as [(-> & -> & -> & Hpost)|(Hne & pre' & -> & H)].
  - done.
  - destruct (IH _ _ H) as (-> & Hpre & Hpost). simpl.
    by rewrite bool_decide_eq_false_2 by done.
Qed.

Lemma Sprintf_cut d f : ∀ pre post,
  cut f = Some (pre, post) → Sprintf f [d] = pre +:+ d +:+ post.
Proof.
  unfold Sprintf.
  induction f as [|c f IH]; intros pre post H; [done|].
  apply cut_inv in H as [(-> & -> & -> & Hpost)|(Hne & pre' & -> & H)].
  - simpl. by rewrite doPrintf_noPercent.
  - simpl. rewrite bool_decide_eq_false_2 by done. by rewrite (IH _ _ H).
Qed.

Lemma substPlaceholder_cons d c c' rest :
  substPlaceholder d (String c (String c' rest))
  = if bool_decide (c = "%"%char) && bool_decide (c' = "s"%char)
    then d +:+ substPlaceholder d rest
    else String c (substPlaceholder d (String c' rest)).
Proof. done. Qed.

Lemma substPlaceholder_cut d f : ∀ pre post,
  cut f = Some (pre, post) → substPlaceholder d f = pre +:+ d +:+ post.
Proof.
  induction f as [|c f IH]; intros pre post H; [done|].
  apply cut_inv in H as [(-> & -> & -> & Hpost)|(Hne & pre' & -> & H)].
  - simpl. by rewrite substPlaceholder_noPercent.
  - destruct f as [|c' f']; [done|].
    rewrite substPlaceholder_cons.
    rewrite (bool_decide_eq_false_2 (c = "%"%char)) by done.
    cbn [andb]. by rewrite (IH _ _ H).
Qed.

Lemma verbs_cut f : ∀ pre post, cut f = Some (pre, post) → verbs f = ["s"%char].
Proof.
  induction f as [|c f IH]; intros pre post H; [done|].
  apply cut_inv in H as [(-> & -> & -> & Hpost)|(Hne & pre' & -> & H)].
  - simpl. by rewrite verbs_noPercent.
  - simpl. rewrite bool_decide_eq_false_2 by done. eauto.
Qed.

Lemma Sprintf_subst d f :
  is_Some (cut f) → Sprintf f [d] = substPlaceholder d f.
Proof.
  intros [[pre post] H].
  by rewrite (Sprintf_cut _ _ _ _ H), (substPlaceholder_cut _ _ _ _ H).
Qed.

Lemma append_inj_r p a b : p +:+ a = p +:+ b → a = b.
Proof. induction p as [|c p IH]; simpl; [done|]. intros [= H]. auto. Qed.

(** *** The formats of the template *)

Lemma cuts_is_Some f : cuts f = true → is_Some (cut f).
Proof. unfold cuts. destruct (cut f); [eauto|done]. Qed.

Lemma tmplFormats_cuts : forallb cuts tmplFormats = true.
Proof. vm_compute. reflexivity. Qed.

(** The formats of the template are inside the fragment of [fmt] that
    [doPrintf] models. *)
Lemma tmplFormats_plain : forallb plainFormat tmplFormats = true.
Proof. vm_compute. reflexivity. Qed.

Lemma tmplFormats_cut f : f ∈ tmplFormats → is_Some (cut f).
Proof.
  intros H. apply cuts_is_Some.
  pose proof tmplFormats_cuts as Hall.
  rewrite forallb_forall in Hall. apply Hall. by apply list_elem_of_In.
Qed.

Lemma tmpl_chart_format v : v ∈ dbChartsTmplLits → ID v ∈ tmplFormats.
Proof.
  intros H. apply list_elem_of_In. unfold tmplFormats. apply in_flat_map.
  exists v. split; [by apply list_elem_of_In|]. by left.
Qed.

Lemma tmpl_dim_format v w :
  v ∈ dbChartsTmplLits → w ∈ Dims v → Dim.ID w ∈ tmplFormats.
Proof.
  intros H Hw. apply list_elem_of_In. unfold tmplFormats. apply in_flat_map.
  exists v. split; [by apply list_elem_of_In|]. right.
  apply in_map. by apply list_elem_of_In.
Qed.

(** On the template, the loop body of [newDatabaseCharts] is the
    literal replacement. *)
Lemma stamp_instantiate d v :
  v ∈ dbChartsTmplLits → stamp d v = instantiate d v.
Proof.
  intros H. unfold stamp, instantiate, set_Dims, set_Labels, set_ID. simpl.
  rewrite (Sprintf_subst d (ID v)) by (by apply tmplFormats_cut, tmpl_chart_format).
  f_equal. apply map_ext_in. intros w Hw.
  unfold stampDim, instantiateDim, Dim.set_ID.
  rewrite (Sprintf_subst d (Dim.ID w)); [done|].
  apply tmplFormats_cut, (tmpl_dim_format v); [done|]. by apply list_elem_of_In.
Qed.

Lemma stamp_instantiate_tmpl d :
  map (stamp d) dbChartsTmplLits = map (instantiate d) dbChartsTmplLits.
Proof.
  apply map_ext_in. intros v Hv. apply stamp_instantiate. by apply list_elem_of_In.
Qed.

(** *** The store once the package is initialised *)

Lemma initState_tmplIntact : tmplIntact initState.
Proof. unfold tmplIntact. vm_compute. reflexivity. Qed.

Lemma initState_baseIntact : baseIntact initState.
Proof. unfold baseIntact. vm_compute. reflexivity. Qed.

(** From here on the package variables and the initial store are used
    through the two lemmas above, not unfolded. *)
#[local] Opaque dbChartsTmpl baseCharts initState.

Lemma length_dbChartsTmplLits : length dbChartsTmplLits = 14.
Proof. reflexivity. Qed.

Lemma length_baseChartsLits : length baseChartsLits = 18.
Proof. reflexivity. Qed.

(** ** [newDatabaseCharts] *)

Lemma newDatabaseCharts_view dbname s tv :
  viewCharts s dbChartsTmpl = Some tv →
  ∃ charts s',
    newDatabaseCharts dbname s = Ok charts s' ∧
    charts = seq (length (chartsH s)) (length tv) ∧
    (∃ moreC, chartsH s' = chartsH s ++ moreC) ∧
    (∃ moreD, dimsH s' = dimsH s ++ moreD) ∧
    p_charts s' = p_charts s ∧ p_log s' = p_log s ∧
    viewCharts s' charts = Some (map (stamp dbname) tv).
Proof.
  intros H. eexists _, _. split; [by apply newDatabaseCharts_run|].
  split; [done|]. split; [by eexists|]. split; [by eexists|].
  split; [done|]. split; [done|].
  rewrite <- (length_map (stamp dbname) tv).
  by apply (viewCharts_layout _ _ (chartsH s) (dimsH s)).
Qed.

Lemma newDatabaseCharts_instantiates_template_aux dbname s :
  tmplIntact s →
  ∃ charts s',
    newDatabaseCharts dbname s = Ok charts s' ∧
    viewCharts s' charts = Some (map (instantiate dbname) dbChartsTmplLits).
Proof.
  intros H.
  destruct (newDatabaseCharts_view dbname s _ H)
    as (charts & s' & Hrun & _ & _ & _ & _ & _ & Hview).
  exists charts, s'. split; [done|]. by rewrite <- stamp_instantiate_tmpl.
Qed.

(** C1: for every database name, [newDatabaseCharts] returns the 14
    charts of [dbChartsTmpl] with the name substituted for [%s] in the
    chart ID and in every dimension ID, and with the single label
    [database: name] on each chart.  [s] is any store in which the
    template reads as it was initialised. *)
Theorem newDatabaseCharts_instantiates_template (dbname : string) (s : State) :
  tmplIntact s →
  ∃ charts s',
    newDatabaseCharts dbname s = Ok charts s' ∧
    length charts = 14 ∧
    viewCharts s' charts = Some (map (instantiate dbname) dbChartsTmplLits).
Proof.
  intros H.
  destruct (newDatabaseCharts_view dbname s _ H)
    as (charts & s' & Hrun & -> & _ & _ & _ & _ & Hview).
  exists (seq (length (chartsH s)) (length dbChartsTmplLits)), s'.
  split; [done|]. split; [by rewrite length_seq|].
  by rewrite <- stamp_instantiate_tmpl.
Qed.

Lemma viewCharts_valid s ps vs : viewCharts s ps = Some vs → validCharts s ps.
Proof.
  unfold viewCharts, validCharts. rewrite mapM_Some.
  induction 1 as [|p v ps vs Hp _ IH]; constructor; [|done].
  apply viewChart_inv in Hp as (c & Hc & _). by exists c.
Qed.

Lemma length_layout vs : ∀ base, length (layout base vs) = length vs.
Proof. induction vs as [|v vs IH]; intros base; simpl; [done|]. by rewrite IH. Qed.

Lemma layout_dims_fresh vs : ∀ base c q,
  c ∈ layout base vs → q ∈ Dims c → (base ≤ q)%nat.
Proof.
  induction vs as [|v vs IH]; intros base c q Hc Hq; simpl in Hc.
  - by apply not_elem_of_nil in Hc.
  - apply elem_of_cons in Hc as [->|Hc].
    + simpl in Hq. apply elem_of_seq in Hq. lia.
    + specialize (IH _ _ _ Hc Hq). lia.
Qed.

Lemma newDatabaseCharts_keeps_template_aux dbname s tv :
  viewCharts s dbChartsTmpl = Some tv →
  ∃ charts s',
    newDatabaseCharts dbname s = Ok charts s' ∧
    (∃ moreC, chartsH s' = chartsH s ++ moreC) ∧
    (∃ moreD, dimsH s' = dimsH s ++ moreD) ∧
    ∀ p, p ∈ charts → chartsH s !! p = None.
Proof.
  intros H.
  destruct (newDatabaseCharts_view dbname s _ H)
    as (charts & s' & Hrun & -> & HC & HD & _).
  eexists _, s'. split; [exact Hrun|]. split; [done|]. split; [done|].
  intros p Hp. apply elem_of_seq in Hp. apply lookup_ge_None. lia.
Qed.

(** C7: [newDatabaseCharts] leaves the template unchanged: the charts
    of [dbChartsTmpl], with their IDs, dimensions and labels, read the
    same after the call as before, and so does every cell that
    existed; the charts returned and their dimensions are cells that
    did not exist before. *)
Theorem newDatabaseCharts_keeps_template
    (dbname : string) (s : State) (tv : list ChartLit) :
  viewCharts s dbChartsTmpl = Some tv →
  ∃ charts s',
    newDatabaseCharts dbname s = Ok charts s' ∧
    viewCharts s' dbChartsTmpl = Some tv ∧
    (∀ p c, chartsH s !! p = Some c → chartsH s' !! p = Some c) ∧
    (∀ q w, dimsH s !! q = Some w → dimsH s' !! q = Some w) ∧
    (∀ p, p ∈ charts →
       chartsH s !! p = None ∧ (p ∉ dbChartsTmpl) ∧
       ∃ c, chartsH s' !! p = Some c ∧ ∀ q, q ∈ Dims c → dimsH s !! q = None).
Proof.
  intros H. eexists _, _. split; [by apply newDatabaseCharts_run|].
  split; [by eapply viewCharts_frame|].
  split; [intros p c Hp; by apply lookup_app_l_Some|].
  split; [intros q w Hq; by apply lookup_app_l_Some|].
  intros p Hp. apply elem_of_seq in Hp.
  assert (Hnew : chartsH s !! p = None) by (apply lookup_ge_None; lia).
  split; [done|]. split.
  - intros Hin. apply viewCharts_valid in H.
    unfold validCharts in H. rewrite Forall_forall in H.
    destruct (H _ Hin) as [c Hc]. congruence.
  - simpl.
    destruct (lookup_lt_is_Some_2
                (layout (length (dimsH s)) (map (stamp dbname) tv))
                (p - length (chartsH s))) as [c Hc].
    { rewrite length_layout, length_map. lia. }
    exists c. split.
    + rewrite lookup_app_r by lia. done.
    + intros q Hq. apply lookup_ge_None.
      eapply layout_dims_fresh; [|exact Hq].
      apply list_elem_of_lookup. eauto.
Qed.

Lemma stamp_sameChart dbname v : sameChart (stamp dbname v) v.
Proof.
  unfold sameChart, stamp. simpl. repeat split.
  induction (Dims v) as [|w ws IH]; simpl; constructor; [|done].
  by split.
Qed.

(** C8: each chart returned by [newDatabaseCharts] keeps the title,
    units, family, context, priority and render type of the template
    chart at the same position, and its dimensions keep their number,
    order, names and algorithms; only the chart ID, the dimension IDs
    and the labels are not the template's.  [tv] is what the template
    reads as in [s]. *)
Theorem newDatabaseCharts_keeps_other_fields
    (dbname : string) (s : State) (tv : list ChartLit) :
  viewCharts s dbChartsTmpl = Some tv →
  ∃ charts s' rs,
    newDatabaseCharts dbname s = Ok charts s' ∧
    viewCharts s' charts = Some rs ∧
    Forall2 sameChart rs tv.
Proof.
  intros H.
  destruct (newDatabaseCharts_view dbname s _ H)
    as (charts & s' & Hrun & _ & _ & _ & _ & _ & Hview).
  exists charts, s', (map (stamp dbname) tv). split; [done|]. split; [done|].
  apply Forall2_fmap_l, Forall_Forall2_diag, Forall_forall.
  intros v _. apply stamp_sameChart.
Qed.

Lemma singleDirective_cut d f : is_Some (cut f) → singleDirective d f.
Proof.
  intros [[pre post] H]. split; [by eapply verbs_cut|].
  exists pre, post. destruct (cut_spec _ _ _ H) as (Hf & Hpre & Hpost).
  split; [done|]. split; [done|]. split; [done|]. by apply Sprintf_cut.
Qed.

Lemma instantiate_substitutedIDs d v : substitutedIDs d (instantiate d v) v.
Proof.
  split; [done|]. simpl.
  induction (Dims v) as [|w ws IH]; simpl; constructor; done.
Qed.

(** C9: every chart ID and every dimension ID of [dbChartsTmpl] has
    exactly one verb, [%s], and no [%] elsewhere; so for every database
    name (with or without [%] in it) [Sprintf] prints the text before
    the verb, the name, the text after it, and the IDs that
    [newDatabaseCharts] produces are the template's with the name in
    the place of [%s]. *)
Theorem tmpl_formats_single_directive (dbname : string) (s : State) :
  tmplIntact s →
  Forall (singleDirective dbname) tmplFormats ∧
  ∃ charts s' rs,
    newDatabaseCharts dbname s = Ok charts s' ∧
    viewCharts s' charts = Some rs ∧
    Forall2 (substitutedIDs dbname) rs dbChartsTmplLits.
Proof.
  intros H. split.
  - apply Forall_forall. intros f Hf.
    by apply singleDirective_cut, tmplFormats_cut.
  - destruct (newDatabaseCharts_instantiates_template_aux dbname s H)
      as (charts & s' & Hrun & Hview).
    exists charts, s', (map (instantiate dbname) dbChartsTmplLits).
    split; [done|]. split; [done|].
    apply Forall2_fmap_l, Forall_Forall2_diag, Forall_forall.
    intros v _. apply instantiate_substitutedIDs.
Qed.

(** ** Chart IDs and priorities *)

Lemma append_cons x (a b : string) : String x a +:+ b = String x (a +:+ b).
Proof. done. Qed.

Lemma append_assoc (a b c : string) : (a +:+ b) +:+ c = a +:+ b +:+ c.
Proof.
  induction a as [|x a IH]; [done|]. rewrite !append_cons. by f_equal.
Qed.

Lemma idAt_view s ps vs :
  viewCharts s ps = Some vs → map (idAt s) ps = map ID vs.
Proof.
  unfold viewCharts. rewrite mapM_Some.
  induction 1 as [|p v ps vs Hp _ IH]; simpl; [done|].
  apply viewChart_inv in Hp as (c & Hc & _ & Hv).
  rewrite IH, (idAt_Some _ _ _ Hc). by rewrite Hv.
Qed.

Lemma substPlaceholder_suffixes d pre l : ∀ sufs,
  map cut l = map (λ suf, Some (pre, suf)) sufs →
  map (substPlaceholder d) l = map (λ suf, pre +:+ d +:+ suf) sufs.
Proof.
  induction l as [|f l IH]; intros [|suf sufs] H; try done.
  simpl in H. injection H as Hf Hl. simpl.
  by rewrite (substPlaceholder_cut _ _ _ _ Hf), (IH _ Hl).
Qed.

Lemma tmpl_ID_cuts :
  map cut (map ID dbChartsTmplLits)
  = map (λ suf, Some ("db_", suf)) dbChartSuffixes.
Proof. vm_compute. reflexivity. Qed.

(** The IDs generated for [d]: [db_], the name, the suffix. *)
Lemma databaseChartIDs_suffixes d :
  databaseChartIDs d = map (λ suf, "db_" +:+ d +:+ suf) dbChartSuffixes.
Proof.
  unfold databaseChartIDs.
  rewrite <- (substPlaceholder_suffixes d "db_" _ _ tmpl_ID_cuts).
  by rewrite map_map.
Qed.

Lemma instantiate_IDs d :
  map ID (map (instantiate d) dbChartsTmplLits) = databaseChartIDs d.
Proof. unfold databaseChartIDs. by rewrite map_map. Qed.

Lemma NoDup_dbChartSuffixes : NoDup dbChartSuffixes.
Proof. apply (bool_decide_unpack _). vm_compute. exact I. Qed.

Lemma NoDup_databaseChartIDs d : NoDup (databaseChartIDs d).
Proof.
  rewrite databaseChartIDs_suffixes.
  apply (NoDup_fmap_2_strong (λ suf, "db_" +:+ d +:+ suf));
    [|apply NoDup_dbChartSuffixes].
  intros a b _ _ H. by apply append_inj_r, append_inj_r in H.
Qed.

Lemma dbChartSuffixes_underscore :
  forallb (String.prefix "_") dbChartSuffixes = true.
Proof. vm_compute. reflexivity. Qed.

Lemma prefix_underscore suf :
  String.prefix "_" suf = true → ∃ r, suf = "_" +:+ r.
Proof.
  destruct suf as [|c r]; [done|]. intros H.
  change (String.prefix "_" (String c r))
    with (if ascii_dec "_" c then String.prefix "" r else false) in H.
  destruct (ascii_dec "_" c) as [<-|]; [|done]. by exists r.
Qed.

(** Every ID generated for [d] starts with the prefix that
    [removeDatabaseCharts] computes for [d], and with [db_]. *)
Lemma databaseChartIDs_prefix d id :
  id ∈ databaseChartIDs d → HasPrefix id ("db_" +:+ d +:+ "_") = true.
Proof.
  rewrite databaseChartIDs_suffixes. intros H.
  apply list_elem_of_In, in_map_iff in H as (suf & <- & Hsuf).
  pose proof dbChartSuffixes_underscore as Hall.
  rewrite forallb_forall in Hall.
  destruct (prefix_underscore _ (Hall _ Hsuf)) as [r ->].
  unfold HasPrefix.
  replace ("db_" +:+ d +:+ "_" +:+ r) with (("db_" +:+ d +:+ "_") +:+ r).
  - apply append_prefix.
  - by rewrite !append_assoc.
Qed.

Lemma databaseChartIDs_db d id :
  id ∈ databaseChartIDs d → String.prefix "db_" id = true.
Proof.
  rewrite databaseChartIDs_suffixes. intros H.
  apply list_elem_of_In, in_map_iff in H as (suf & <- & _).
  apply append_prefix.
Qed.

Lemma baseCharts_IDs_not_db :
  forallb (λ id, negb (String.prefix "db_" id)) (map ID baseChartsLits) = true.
Proof. vm_compute. reflexivity. Qed.

Lemma NoDup_baseCharts_IDs : NoDup (map ID baseChartsLits).
Proof. apply (bool_decide_unpack _). vm_compute. exact I. Qed.

(** C6: chart IDs are unique: the IDs of the 18 charts of [baseCharts]
    are pairwise distinct, and for every database name the 14 IDs that
    [newDatabaseCharts] produces are pairwise distinct and differ from
    every ID of [baseCharts].  The IDs are read in the store after the
    call; [s] is any store in which the package data reads as
    initialised. *)
Theorem chart_IDs_unique (dbname : string) (s : State) :
  baseIntact s → tmplIntact s →
  ∃ charts s',
    newDatabaseCharts dbname s = Ok charts s' ∧
    length baseCharts = 18 ∧ length charts = 14 ∧
    NoDup (map (idAt s') baseCharts) ∧
    NoDup (map (idAt s') charts) ∧
    ∀ id, id ∈ map (idAt s') charts → id ∉ map (idAt s') baseCharts.
Proof.
  intros Hbase Htmpl.
  destruct (newDatabaseCharts_view dbname s _ Htmpl)
    as (charts & s' & Hrun & Hcharts & [moreC HC] & [moreD HD] & _ & _ & Hview).
  rewrite stamp_instantiate_tmpl in Hview.
  pose proof (viewCharts_frame _ _ _ _ _ _ HC HD Hbase) as Hbase'.
  exists charts, s'. split; [done|].
  rewrite (idAt_view _ _ _ Hbase'), (idAt_view _ _ _ Hview), instantiate_IDs.
  split; [reflexivity|].
  split; [by rewrite Hcharts, length_seq|].
  split; [apply NoDup_baseCharts_IDs|].
  split; [apply NoDup_databaseChartIDs|].
  intros id Hid Hb. apply databaseChartIDs_db in Hid.
  pose proof baseCharts_IDs_not_db as Hall. rewrite forallb_forall in Hall.
  apply list_elem_of_In, Hall in Hb. by rewrite Hid in Hb.
Qed.

(** C10: the 32 priority constants are consecutive values starting
    at [module.Priority], hence distinct, and the 18 charts of
    [baseCharts] and the 14 charts of [dbChartsTmpl] each have a
    different one of them: no two chart definitions share a priority. *)
Theorem priorities_distinct :
  length prioConstants = 32 ∧
  prioConstants = map (λ i, (module_Priority + Z.of_nat i)%Z) (seq 0 32) ∧
  NoDup prioConstants ∧
  viewCharts initState (baseCharts ++ dbChartsTmpl)
  = Some (baseChartsLits ++ dbChartsTmplLits) ∧
  length baseChartsLits = 18 ∧ length dbChartsTmplLits = 14 ∧
  map Priority (baseChartsLits ++ dbChartsTmplLits) ≡ₚ prioConstants ∧
  NoDup (map Priority (baseChartsLits ++ dbChartsTmplLits)).
Proof.
  assert (Hc : prioConstants
               = map (λ i, (module_Priority + Z.of_nat i)%Z) (seq 0 32))
    by reflexivity.
  assert (Hnd : NoDup prioConstants).
  { rewrite Hc. apply (NoDup_fmap_2_strong _); [|apply NoDup_seq].
    intros a b _ _ H. lia. }
  assert (Hp : map Priority (baseChartsLits ++ dbChartsTmplLits) ≡ₚ prioConstants).
  { cbn [baseChartsLits dbChartsTmplLits app map prioConstants].
    do 4 apply perm_skip. apply perm_swap. }
  split; [reflexivity|]. split; [exact Hc|]. split; [exact Hnd|].
  split; [vm_compute; reflexivity|].
  split; [reflexivity|]. split; [reflexivity|]. split; [exact Hp|].
  by rewrite Hp.
Qed.

(** ** Runes and the check of IDs *)

Lemma first_lo b sz lo hi : first b = Some (sz, lo, hi) → (0x80 ≤ lo)%N.
Proof.
  unfold first.
  repeat match goal with
         | |- context [if ?c then _ else _] => destruct c
         end; intros H; try discriminate H;
    injection H as <- <- <-; lia.
Qed.

Lemma nextIn_append lo hi r a x :
  (0x80 ≤ lo)%N → (N_of_ascii a < 0x80)%N →
  nextIn lo hi (r +:+ String a x) = nextIn lo hi r.
Proof.
  intros Hlo Ha. destruct r as [|c r]; [|reflexivity].
  change ("" +:+ String a x) with (String a x). cbn [nextIn].
  assert (E : (lo <=? N_of_ascii a)%N = false) by (apply N.leb_gt; lia).
  by rewrite E.
Qed.

Lemma nextIn_Some lo hi r b :
  nextIn lo hi r = Some b → ∃ c r', r = String c r'.
Proof. destruct r as [|c r']; [discriminate|]. eauto. Qed.

Lemma DecodeRuneInString_append c0 r1 a x :
  (N_of_ascii a < 0x80)%N →
  DecodeRuneInString (String c0 (r1 +:+ String a x))
  = DecodeRuneInString (String c0 r1).
Proof.
  intros Ha. unfold DecodeRuneInString.
  destruct (N_of_ascii c0 <? 0x80)%N; [reflexivity|].
  destruct (first (N_of_ascii c0)) as [[[sz lo] hi]|] eqn:F; [|reflexivity].
  rewrite (nextIn_append lo hi r1 a x (first_lo _ _ _ _ F) Ha).
  destruct (nextIn lo hi r1) as [b1|] eqn:E1; [|reflexivity].
  destruct (nextIn_Some _ _ _ _ E1) as (c1 & r2 & ->).
  destruct (sz <=? 2)%nat; [reflexivity|].
  rewrite append_cons. cbn [tail].
  rewrite (nextIn_append 0x80 0xBF r2 a x (N.le_refl _) Ha).
  destruct (nextIn 0x80 0xBF r2) as [b2|] eqn:E2; [|reflexivity].
  destruct (nextIn_Some _ _ _ _ E2) as (c2 & r3 & ->).
  destruct (sz <=? 3)%nat; [reflexivity|].
  rewrite append_cons. cbn [tail].
  rewrite (nextIn_append 0x80 0xBF r3 a x (N.le_refl _) Ha).
  reflexivity.
Qed.

(** A rune is encoded by bytes of the string. *)
Lemma DecodeRuneInString_width s r w :
  DecodeRuneInString s = (r, w) → (w ≤ String.length s)%nat.
Proof.
  destruct s as [|c0 r1]; [intros [= <- <-]; reflexivity|].
  unfold DecodeRuneInString. cbn [String.length].
  destruct (N_of_ascii c0 <? 0x80)%N; [intros [= <- <-]; lia|].
  destruct (first (N_of_ascii c0)) as [[[sz lo] hi]|]; [|intros [= <- <-]; lia].
  destruct (nextIn lo hi r1) as [b1|] eqn:E1; [|intros [= <- <-]; lia].
  destruct (nextIn_Some _ _ _ _ E1) as (c1 & r2 & ->). cbn [String.length tail].
  destruct (sz <=? 2)%nat; [intros [= <- <-]; lia|].
  destruct (nextIn 0x80 0xBF r2) as [b2|] eqn:E2; [|intros [= <- <-]; lia].
  destruct (nextIn_Some _ _ _ _ E2) as (c2 & r3 & ->). cbn [String.length tail].
  destruct (sz <=? 3)%nat; [intros [= <- <-]; lia|].
  destruct (nextIn 0x80 0xBF r3) as [b3|] eqn:E3; [|intros [= <- <-]; lia].
  destruct (nextIn_Some _ _ _ _ E3) as (c3 & r4 & ->). cbn [String.length].
  intros [= <- <-]; lia.
Qed.

(** A text that starts with an ASCII byte completes no encoding left
    open before it: the runes of the whole are the runes of the two
    parts. *)
Lemma rangeRunes_append a x s : ∀ k,
  (N_of_ascii a < 0x80)%N → (k ≤ String.length s)%nat →
  rangeRunes k (s +:+ String a x)
  = rangeRunes k s ++ rangeRunes 0 (String a x).
Proof.
  induction s as [|c rest IH]; intros k Ha Hk.
  - cbn [String.length] in Hk. replace k with 0%nat by lia. reflexivity.
  - rewrite append_cons. cbn [String.length] in Hk.
    destruct k as [|k].
    + change (rangeRunes 0 (String c (rest +:+ String a x)))
        with (let (r, width) := DecodeRuneInString (String c (rest +:+ String a x))
              in r :: rangeRunes (width - 1) (rest +:+ String a x)).
      change (rangeRunes 0 (String c rest))
        with (let (r, width) := DecodeRuneInString (String c rest)
              in r :: rangeRunes (width - 1) rest).
      rewrite (DecodeRuneInString_append c rest a x Ha).
      destruct (DecodeRuneInString (String c rest)) as [r w] eqn:E.
      apply DecodeRuneInString_width in E. cbn [String.length] in E.
      rewrite <- app_comm_cons. f_equal. apply IH; [exact Ha|lia].
    + change (rangeRunes (S k) (String c (rest +:+ String a x)))
        with (rangeRunes k (rest +:+ String a x)).
      change (rangeRunes (S k) (String c rest)) with (rangeRunes k rest).
      apply IH; [exact Ha|lia].
Qed.

Lemma plainByte_ascii c : plainByte c = true → (N_of_ascii c < 0x80)%N.
Proof.
  unfold plainByte. intros H. apply andb_true_iff in H as [H _].
  by apply N.ltb_lt.
Qed.

Lemma hasSpace_plain p : ∀ rest,
  plainText p = true → hasSpace (p +:+ rest) = hasSpace rest.
Proof.
  induction p as [|c p IH]; intros rest H; [reflexivity|].
  cbn [plainText] in H. apply andb_true_iff in H as [Hc Hp].
  rewrite append_cons. unfold hasSpace.
  change (rangeRunes 0 (String c (p +:+ rest)))
    with (let (r, width) := DecodeRuneInString (String c (p +:+ rest))
          in r :: rangeRunes (width - 1) (p +:+ rest)).
  assert (E : DecodeRuneInString (String c (p +:+ rest)) = (N_of_ascii c, 1%nat)).
  { unfold DecodeRuneInString.
    by rewrite (proj2 (N.ltb_lt _ _) (plainByte_ascii _ Hc)). }
  rewrite E. cbn [existsb Nat.sub].
  unfold plainByte in Hc. apply andb_true_iff in Hc as [_ Hs].
  apply negb_true_iff in Hs. rewrite Hs. exact (IH rest Hp).
Qed.

Lemma append_nil_r s : s +:+ "" = s.
Proof. induction s as [|c s IH]; [reflexivity|]. rewrite append_cons. by f_equal. Qed.

Lemma hasSpace_plainText p : plainText p = true → hasSpace p = false.
Proof.
  intros H. rewrite <- (append_nil_r p). by rewrite (hasSpace_plain p "" H).
Qed.

Lemma checkID_hasSpace s : checkID s = (-1)%Z ↔ hasSpace s = false.
Proof.
  unfold checkID, hasSpace.
  induction (rangeRunes 0 s) as [|r l IH]; [done|].
  cbn [List.find existsb]. destruct (IsSpace r); [|exact IH].
  split; [lia|discriminate].
Qed.

(** An ID made of [db_], a name and a template text has white space
    only if the name has. *)
Lemma checkID_generated d suf :
  checkID d = (-1)%Z → plainSuffix suf = true →
  "db_" +:+ d +:+ suf ≠ "" ∧ checkID ("db_" +:+ d +:+ suf) = (-1)%Z.
Proof.
  intros Hd Hsuf. split; [discriminate|].
  apply checkID_hasSpace. apply checkID_hasSpace in Hd.
  rewrite (hasSpace_plain "db_" _ eq_refl).
  unfold plainSuffix in Hsuf. apply andb_true_iff in Hsuf as [Hne Hplain].
  destruct suf as [|a x]; [discriminate Hne|].
  assert (Ha : plainByte a = true).
  { cbn [plainText] in Hplain. by apply andb_true_iff in Hplain as [Ha _]. }
  unfold hasSpace.
  rewrite (rangeRunes_append a x d 0 (plainByte_ascii _ Ha) (Nat.le_0_l _)).
  rewrite existsb_app. fold (hasSpace d). fold (hasSpace (String a x)).
  by rewrite Hd, (hasSpace_plainText _ Hplain).
Qed.

(** *** The checks on the instantiated charts *)

Lemma dimIDs_instantiate d vs :
  dimIDs (map (instantiate d) vs) = map (substPlaceholder d) (dimIDs vs).
Proof.
  unfold dimIDs. induction vs as [|v vs IH]; [reflexivity|].
  cbn [map flat_map]. rewrite map_app, IH. f_equal.
  cbn [instantiate Dims]. rewrite !map_map. reflexivity.
Qed.

Lemma tmpl_dim_cuts :
  map cut (dimIDs dbChartsTmplLits)
  = map (λ suf, Some ("db_", suf)) dbDimSuffixes.
Proof. vm_compute. reflexivity. Qed.

Lemma NoDup_dbDimSuffixes : NoDup dbDimSuffixes.
Proof. apply (bool_decide_unpack _). vm_compute. exact I. Qed.


Lemma dbChartSuffixes_plain : forallb plainSuffix dbChartSuffixes = true.
Proof. vm_compute. reflexivity. Qed.

Lemma dbDimSuffixes_plain : forallb plainSuffix dbDimSuffixes = true.
Proof. vm_compute. reflexivity. Qed.

Lemma tmpl_titles_units :
  forallb (λ v, negb (bool_decide (Title v = ""))
                && negb (bool_decide (Units v = ""))) dbChartsTmplLits = true.
Proof. vm_compute. reflexivity. Qed.

(** The dimension IDs generated for [d]: [db_], the name, the suffix. *)
Lemma instantiate_dimIDs d :
  dimIDs (map (instantiate d) dbChartsTmplLits)
  = map (λ suf, "db_" +:+ d +:+ suf) dbDimSuffixes.
Proof.
  rewrite dimIDs_instantiate.
  exact (substPlaceholder_suffixes d "db_" _ _ tmpl_dim_cuts).
Qed.

Lemma NoDup_instantiate_dimIDs d :
  NoDup (dimIDs (map (instantiate d) dbChartsTmplLits)).
Proof.
  rewrite instantiate_dimIDs.
  apply (NoDup_fmap_2_strong (λ suf, "db_" +:+ d +:+ suf));
    [|apply NoDup_dbDimSuffixes].
  intros a b _ _ H. by apply append_inj_r, append_inj_r in H.
Qed.

Lemma NoDup_flat_map_elem {A B} (f : A → list B) l v :
  NoDup (flat_map f l) → v ∈ l → NoDup (f v).
Proof.
  induction l as [|x l IH]; intros Hnd Hv; [by apply not_elem_of_nil in Hv|].
  cbn [flat_map] in Hnd. apply NoDup_app in Hnd as (Hx & _ & Hl).
  apply elem_of_cons in Hv as [->|Hv]; [exact Hx|exact (IH Hl Hv)].
Qed.

Lemma checkDimsLit_ok ws : ∀ set,
  Forall (λ w, checkDimLit w = None) ws →
  NoDup (map Dim.ID ws) →
  (∀ w, w ∈ ws → Dim.ID w ∉ set) →
  checkDimsLit ws set = None.
Proof.
  induction ws as [|w ws IH]; intros set Hok Hnd Hset; [reflexivity|].
  apply Forall_cons in Hok as [Hw Hok].
  cbn [map] in Hnd. apply NoDup_cons in Hnd as [Hfresh Hnd].
  cbn [checkDimsLit]. rewrite Hw.
  rewrite bool_decide_eq_false_2 by (apply Hset, list_elem_of_here).
  apply IH; [exact Hok|exact Hnd|].
  intros w' Hw' Hin. apply elem_of_union in Hin as [Hin|Hin].
  - apply elem_of_singleton in Hin. apply Hfresh. rewrite <- Hin.
    change (Dim.ID w' ∈ Dim.ID <$> ws). by apply list_elem_of_fmap_2.
  - apply (Hset w'); [by apply list_elem_of_further|exact Hin].
Qed.

Lemma checkDimLit_generated d w :
  checkID d = (-1)%Z →
  Dim.ID w ∈ map (λ suf, "db_" +:+ d +:+ suf) dbDimSuffixes →
  checkDimLit w = None.
Proof.
  intros Hd Hin. apply list_elem_of_In, in_map_iff in Hin as (suf & Hid & Hsuf).
  pose proof dbDimSuffixes_plain as Hall. rewrite forallb_forall in Hall.
  destruct (checkID_generated d suf Hd (Hall _ Hsuf)) as [Hne Hok].
  rewrite Hid in Hne, Hok. unfold checkDimLit.
  rewrite (bool_decide_eq_false_2 _ Hne).
  by rewrite (bool_decide_eq_false_2 _ (λ H : checkID (Dim.ID w) ≠ (-1)%Z, H Hok)).
Qed.

(** When the name has no white space, each of the 14 instantiated
    charts passes [checkChart]. *)
Lemma instantiate_checked d :
  checkID d = (-1)%Z →
  Forall (λ v, checkChartLit v = None) (map (instantiate d) dbChartsTmplLits).
Proof.
  intros Hd. apply Forall_forall. intros r Hr.
  assert (Hdims : ∀ w, w ∈ Dims r →
            Dim.ID w ∈ map (λ suf, "db_" +:+ d +:+ suf) dbDimSuffixes).
  { intros w Hw. rewrite <- instantiate_dimIDs. unfold dimIDs.
    apply list_elem_of_In, in_flat_map. exists r.
    split; [by apply list_elem_of_In|]. apply in_map. by apply list_elem_of_In. }
  assert (Hnd : NoDup (map Dim.ID (Dims r))).
  { exact (NoDup_flat_map_elem (λ v, map Dim.ID (Dims v)) _ r
             (NoDup_instantiate_dimIDs d) Hr). }
  assert (Hid : ID r ∈ databaseChartIDs d).
  { rewrite <- instantiate_IDs. change (ID r ∈ ID <$> map (instantiate d) dbChartsTmplLits).
    by apply list_elem_of_fmap_2. }
  rewrite databaseChartIDs_suffixes in Hid.
  apply list_elem_of_In, in_map_iff in Hid as (suf & Hid & Hsuf).
  pose proof dbChartSuffixes_plain as Hall. rewrite forallb_forall in Hall.
  destruct (checkID_generated d suf Hd (Hall _ Hsuf)) as [Hne Hok].
  rewrite Hid in Hne, Hok.
  apply list_elem_of_In, in_map_iff in Hr as (v & <- & Hv).
  pose proof tmpl_titles_units as Htu. rewrite forallb_forall in Htu.
  specialize (Htu v Hv). apply andb_true_iff in Htu as [Ht Hu].
  apply negb_true_iff, bool_decide_eq_false in Ht, Hu.
  unfold checkChartLit. cbn [instantiate ID Title Units Dims] in *.
  rewrite (bool_decide_eq_false_2 _ Hne), (bool_decide_eq_false_2 _ Ht),
    (bool_decide_eq_false_2 _ Hu).
  rewrite (bool_decide_eq_false_2 _
             (λ H : checkID (substPlaceholder d (ID v)) ≠ (-1)%Z, H Hok)).
  apply checkDimsLit_ok.
  - apply Forall_forall. intros w Hw. exact (checkDimLit_generated d w Hd (Hdims w Hw)).
  - exact Hnd.
  - intros w _. apply not_elem_of_empty.
Qed.

(** ** [removeDatabaseCharts] and [addNewDatabaseCharts] *)

(** C2: [removeDatabaseCharts] marks for removal, and marks not
    created, exactly the charts of the collection whose ID starts with
    [db_], the name, [_]; a chart whose ID has not that prefix is left
    as it is, field by field, and so is every cell outside the
    collection; the collection itself, the dimensions and the log are
    unchanged.  [s] is any state whose collection holds pointers to
    charts. *)
Theorem removeDatabaseCharts_marks_prefixed (dbname : string) (s : State) :
  validCharts s (p_charts s) →
  ∃ s',
    removeDatabaseCharts dbname s = Ok tt s' ∧
    p_charts s' = p_charts s ∧ dimsH s' = dimsH s ∧ p_log s' = p_log s ∧
    length (chartsH s') = length (chartsH s) ∧
    ∀ p c, chartsH s !! p = Some c →
      (p ∈ p_charts s → HasPrefix (ID c) ("db_" +:+ dbname +:+ "_") = true →
         chartsH s' !! p = Some (set_created false (set_remove true c))) ∧
      (HasPrefix (ID c) ("db_" +:+ dbname +:+ "_") = false →
         chartsH s' !! p = Some c) ∧
      (p ∉ p_charts s → chartsH s' !! p = Some c).
Proof.
  intros Hv. eexists. split; [by apply removeDatabaseCharts_run|].
  cbn [withStore p_charts dimsH p_log chartsH].
  split; [done|]. split; [done|]. split; [done|].
  split; [apply length_markStore|].
  intros p c Hc. rewrite lookup_markStore, Hc. unfold markCell. simpl.
  split; [|split].
  - intros Hin Hpre. by rewrite bool_decide_eq_true_2, Hpre.
  - intros Hpre. by rewrite Hpre, andb_false_r.
  - intros Hout. by rewrite bool_decide_eq_false_2.
Qed.

Lemma validCharts_frame s s' ps moreC :
  chartsH s' = chartsH s ++ moreC → validCharts s ps → validCharts s' ps.
Proof.
  unfold validCharts. intros HC H. eapply Forall_impl; [exact H|].
  intros p [c Hc]. exists c. rewrite HC. by apply lookup_app_l_Some.
Qed.

Lemma idAt_frame s s' ps moreC :
  chartsH s' = chartsH s ++ moreC → validCharts s ps →
  map (idAt s') ps = map (idAt s) ps.
Proof.
  unfold validCharts. intros HC H. apply map_ext_in. intros p Hp.
  rewrite Forall_forall in H.
  destruct (H p (proj2 (list_elem_of_In _ _) Hp)) as [c Hc].
  rewrite (idAt_Some _ _ _ Hc). apply idAt_Some.
  rewrite HC. by apply lookup_app_l_Some.
Qed.

Lemma liveID_frame s s' reg moreC id :
  chartsH s' = chartsH s ++ moreC → validCharts s reg →
  liveID s' reg id = liveID s reg id.
Proof.
  intros HC Hv. unfold validCharts in Hv. rewrite Forall_forall in Hv.
  assert (Hcell : ∀ q, q ∈ reg → chartsH s' !! q = chartsH s !! q).
  { intros q Hq. destruct (Hv q Hq) as [c Hc]. rewrite Hc, HC.
    by apply lookup_app_l_Some. }
  assert (Hfirst : ∀ l, (∀ q, q ∈ l → q ∈ reg) →
            firstWithID s' l id = firstWithID s l id).
  { intros l. induction l as [|p l IH]; intros Hl; [reflexivity|].
    cbn [firstWithID].
    assert (Hid : idAt s' p = idAt s p)
      by (unfold idAt; by rewrite (Hcell p (Hl p (list_elem_of_here _ _)))).
    rewrite Hid, IH; [reflexivity|].
    intros q Hq. apply Hl. by apply list_elem_of_further. }
  unfold liveID. rewrite (Hfirst reg (λ q Hq, Hq)).
  destruct (firstWithID s reg id) as [q|] eqn:E; [|reflexivity].
  apply firstWithID_Some in E as [Hq _]. by rewrite (Hcell q Hq).
Qed.

(** A registered chart that is marked for removal does not stand in
    the way of a new chart with its ID. *)
Lemma noLiveConflict_liveID d s id :
  noLiveConflict d s → id ∈ databaseChartIDs d →
  liveID s (p_charts s) id = false.
Proof.
  intros Hno Hid. unfold noLiveConflict in Hno. rewrite Forall_forall in Hno.
  unfold liveID. destruct (firstWithID s (p_charts s) id) as [q|] eqn:E;
    [|reflexivity].
  apply firstWithID_Some in E as [Hq Hidq].
  assert (Hrm : removeAt s q = Some true) by (apply Hno; [exact Hq|by rewrite Hidq]).
  unfold removeAt in Hrm. destruct (chartsH s !! q) as [w|]; [|discriminate].
  cbn in Hrm. injection Hrm as Hrm. cbn. by rewrite Hrm.
Qed.

Lemma noConflict_noLiveConflict d s : noConflict d s → noLiveConflict d s.
Proof.
  unfold noConflict, noLiveConflict. intros H.
  eapply Forall_impl; [exact H|]. intros p Hp Hin. by destruct (Hp Hin).
Qed.

(** [addNewDatabaseCharts] is [newDatabaseCharts], then [Charts.Add]
    on the new charts, then the warning if there is an error. *)
Lemma addNewDatabaseCharts_run dbname s :
  tmplIntact s → validCharts s (p_charts s) →
  ∃ charts s1,
    newDatabaseCharts dbname s = Ok charts s1 ∧
    length charts = 14 ∧
    viewCharts s1 charts = Some (map (instantiate dbname) dbChartsTmplLits) ∧
    (∃ moreC, chartsH s1 = chartsH s ++ moreC) ∧
    p_log s1 = p_log s ∧
    let r := addPure s1 (p_charts s) charts in
    Charts_Add charts s1 = Ok r.1 (withCharts r.2 s1) ∧
    addNewDatabaseCharts dbname s
    = Ok tt (match r.1 with
             | Some e => withLog (p_log s ++ [e]) (withCharts r.2 s1)
             | None => withCharts r.2 s1
             end).
Proof.
  intros Htmpl Hv.
  destruct (newDatabaseCharts_view dbname s _ Htmpl)
    as (charts & s1 & Hrun & Hcharts & [moreC HC] & _ & Hreg & Hlog & Hview).
  rewrite stamp_instantiate_tmpl in Hview.
  exists charts, s1. split; [done|].
  split; [by rewrite Hcharts, length_seq|]. split; [done|].
  split; [by exists moreC|]. split; [done|].
  assert (Hadd : Charts_Add charts s1
                 = Ok (addPure s1 (p_charts s) charts).1
                      (withCharts (addPure s1 (p_charts s) charts).2 s1)).
  { rewrite <- Hreg. eapply Charts_Add_run; [|exact Hview].
    rewrite Hreg. by eapply validCharts_frame. }
  cbv zeta. split; [done|].
  unfold addNewDatabaseCharts.
  rewrite (bind_Ok _ _ _ _ _ Hrun), (bind_Ok _ _ _ _ _ Hadd).
  destruct (addPure s1 (p_charts s) charts).1; [|done].
  unfold Warning, withLog, withCharts. simpl. by rewrite Hlog.
Qed.

(** [Charts.Add] takes the whole batch: the name has no white space,
    so every chart passes [checkChart], and no registered chart with
    one of the IDs is live. *)
Lemma addPure_accepts dbname s s1 charts moreC :
  checkID dbname = (-1)%Z → noLiveConflict dbname s →
  validCharts s (p_charts s) →
  chartsH s1 = chartsH s ++ moreC →
  viewCharts s1 charts = Some (map (instantiate dbname) dbChartsTmplLits) →
  addPure s1 (p_charts s) charts = (None, p_charts s ++ charts).
Proof.
  intros Hd Hno Hv HC Hview.
  apply (addPure_fresh s1 charts _ _ Hview).
  - by apply instantiate_checked.
  - rewrite instantiate_IDs. apply NoDup_databaseChartIDs.
  - apply Forall_forall. intros v Hin.
    rewrite (liveID_frame s s1 _ moreC _ HC Hv).
    apply (noLiveConflict_liveID dbname); [exact Hno|].
    rewrite <- instantiate_IDs.
    change (ID v ∈ ID <$> map (instantiate dbname) dbChartsTmplLits).
    by apply list_elem_of_fmap_2.
Qed.

(** C5, amended: [addNewDatabaseCharts] registers the 14 instantiated
    charts with the collection when the name has no white-space
    character and every registered chart that has one of their IDs is
    marked for removal (so, when no registered chart has one); and
    when [Charts.Add] returns an error, the function logs it as a
    warning on top of what [Charts.Add] left, and returns normally:
    it has no error result and does not panic. *)
Theorem addNewDatabaseCharts_registers (dbname : string) (s : State) :
  tmplIntact s → validCharts s (p_charts s) →
  ∃ charts s1 err s2,
    newDatabaseCharts dbname s = Ok charts s1 ∧
    Charts_Add charts s1 = Ok err s2 ∧
    addNewDatabaseCharts dbname s
    = Ok tt (match err with
             | Some e => withLog (p_log s ++ [e]) s2
             | None => s2
             end) ∧
    (checkID dbname = (-1)%Z → noLiveConflict dbname s →
       err = None ∧ length charts = 14 ∧
       p_charts s2 = p_charts s ++ charts ∧
       viewCharts s2 charts = Some (map (instantiate dbname) dbChartsTmplLits) ∧
       p_log s2 = p_log s).
Proof.
  intros Htmpl Hv.
  destruct (addNewDatabaseCharts_run dbname s Htmpl Hv)
    as (charts & s1 & Hrun & Hlen & Hview & [moreC HC] & Hlog & Hadd & Hall).
  eexists charts, s1, _, _. split; [done|]. split; [exact Hadd|].
  split; [exact Hall|].
  intros Hd Hno.
  rewrite (addPure_accepts dbname s s1 charts moreC Hd Hno Hv HC Hview).
  split; [reflexivity|]. split; [exact Hlen|]. split; [reflexivity|].
  split; [exact Hview|exact Hlog].
Qed.

Lemma registersAll_b d s : registersAll d s → registersAllb d s = true.
Proof.
  intros (charts & s1 & s2 & H1 & H2 & _ & Hreg).
  unfold registersAllb. rewrite H1, H2. by apply bool_decide_eq_true_2.
Qed.

Lemma marksAllInstantiated_b d s :
  marksAllInstantiated d s → marksAllInstantiatedb d s = true.
Proof.
  intros (charts & s1 & s2 & s3 & H1 & H2 & H3 & _ & Hall).
  unfold marksAllInstantiatedb. rewrite H1, H2, H3.
  apply forallb_forall. intros p Hp.
  apply bool_decide_eq_true_2, Hall. by apply list_elem_of_In.
Qed.

(** C3, amended: when the name has no white-space character and every
    registered chart that has one of the IDs generated for the name is
    marked for removal (so, when no registered chart has one), which
    makes registration succeed, every one of the 14 charts
    instantiated by [addNewDatabaseCharts] is marked for removal by
    the [removeDatabaseCharts] that follows, because each of their IDs
    starts with [db_], the name, [_]. *)
Theorem add_then_remove_marks_registered (dbname : string) (s : State) :
  tmplIntact s → validCharts s (p_charts s) →
  checkID dbname = (-1)%Z → noLiveConflict dbname s →
  marksAllInstantiated dbname s.
Proof.
  intros Htmpl Hv Hd Hno.
  destruct (addNewDatabaseCharts_run dbname s Htmpl Hv)
    as (charts & s1 & Hrun & Hlen & Hview & [moreC HC] & Hlog & _ & Hall).
  assert (Hids : map (idAt s1) charts = databaseChartIDs dbname)
    by (rewrite (idAt_view _ _ _ Hview); apply instantiate_IDs).
  rewrite (addPure_accepts dbname s s1 charts moreC Hd Hno Hv HC Hview) in Hall.
  cbn [fst snd] in Hall.
  set (s2 := withCharts (p_charts s ++ charts) s1) in *.
  assert (Hnew : validCharts s1 charts) by (by eapply viewCharts_valid).
  assert (Hv2 : validCharts s2 (p_charts s2)).
  { apply Forall_app. split; [|done]. by eapply validCharts_frame. }
  eexists charts, s1, s2, _. split; [exact Hrun|]. split; [exact Hall|].
  split; [by apply removeDatabaseCharts_run|]. split; [done|].
  intros p Hp. unfold removeAt. cbn [withStore chartsH].
  unfold validCharts in Hnew. rewrite Forall_forall in Hnew.
  destruct (Hnew p Hp) as [c Hc].
  rewrite lookup_markStore. change (chartsH s2) with (chartsH s1).
  rewrite Hc. simpl. f_equal.
  unfold markCell.
  rewrite bool_decide_eq_true_2
    by (change (p_charts s2) with (p_charts s ++ charts);
        apply elem_of_app; by right).
  rewrite databaseChartIDs_prefix; [done|].
  rewrite <- Hids, <- (idAt_Some _ _ _ Hc).
  change (idAt s1 p ∈ idAt s1 <$> charts). by apply list_elem_of_fmap_2.
Qed.

(** The prefix computed for a name is also a prefix of every ID
    generated for a longer name that continues with [_]. *)
Lemma databaseChartIDs_prefix_longer d x id :
  id ∈ databaseChartIDs (d +:+ "_" +:+ x) →
  HasPrefix id ("db_" +:+ d +:+ "_") = true.
Proof.
  rewrite databaseChartIDs_suffixes. intros H.
  apply list_elem_of_In, in_map_iff in H as (suf & <- & _).
  unfold HasPrefix.
  replace ("db_" +:+ (d +:+ "_" +:+ x) +:+ suf)
    with (("db_" +:+ d +:+ "_") +:+ x +:+ suf).
  - apply append_prefix.
  - by rewrite !append_assoc.
Qed.

(** C4: there are distinct names [d1] and [d2], here [app] and
    [app_x], such that once the charts of both are registered,
    [removeDatabaseCharts(d1)] also marks the 14 charts instantiated
    for [d2]: their IDs start with [db_app_]. *)
Theorem removeDatabaseCharts_marks_longer_name :
  ∃ d1 d2 : string,
    d1 ≠ d2 ∧
    ∃ s0 charts2 s1 s2 s3,
      addNewDatabaseCharts d1 initState = Ok tt s0 ∧
      newDatabaseCharts d2 s0 = Ok charts2 s1 ∧
      addNewDatabaseCharts d2 s0 = Ok tt s2 ∧
      removeDatabaseCharts d1 s2 = Ok tt s3 ∧
      length charts2 = 14 ∧
      Forall (λ p,
        p ∈ p_charts s2 ∧
        Labels <$> chartsH s2 !! p = Some [ {| Key := "database"; Value := d2 |} ] ∧
        removeAt s2 p = Some false ∧
        removeAt s3 p = Some true ∧
        (λ c, HasPrefix (ID c) ("db_" +:+ d1 +:+ "_")) <$> chartsH s3 !! p
        = Some true) charts2.
Proof.
  exists "app", "app_x". split; [done|].
  set (s0 := stateAfter (addNewDatabaseCharts "app") initState).
  exists s0,
    (valueOf [] (newDatabaseCharts "app_x") s0),
    (stateAfter (newDatabaseCharts "app_x") s0).
  set (s2 := stateAfter (addNewDatabaseCharts "app_x") s0).
  exists s2, (stateAfter (removeDatabaseCharts "app") s2).
  split; [vm_compute; reflexivity|].
  split; [vm_compute; reflexivity|].
  split; [vm_compute; reflexivity|].
  split; [vm_compute; reflexivity|].
  split; [vm_compute; reflexivity|].
  apply (bool_decide_unpack _). vm_compute. exact I.
Qed.

(** ** The hypotheses of the theorems are invariants

    [wellFormed] holds once the package is initialised and is kept by
    [addNewDatabaseCharts] and by [removeDatabaseCharts], for every
    database name: the hypotheses [tmplIntact], [baseIntact] and
    [validCharts] used above hold in every state these functions can
    reach. *)

Lemma wellFormed_init : wellFormed initState.
Proof.
  assert (E : p_charts initState = []) by (vm_compute; reflexivity).
  split; [apply initState_tmplIntact|]. split; [apply initState_baseIntact|].
  rewrite E. split; constructor.
Qed.

Lemma viewChart_unmarked prefix ps s p :
  p ∉ ps →
  viewChart (withStore (markStore prefix ps (chartsH s)) (dimsH s) s) p
  = viewChart s p.
Proof.
  intros Hp. unfold viewChart. cbn [withStore chartsH].
  rewrite lookup_markStore.
  destruct (chartsH s !! p) as [c|]; [|done]; cbn.
  unfold markCell. by rewrite bool_decide_eq_false_2.
Qed.

Lemma viewCharts_unmarked prefix ps s qs :
  Forall (λ q, q ∉ ps) qs →
  viewCharts (withStore (markStore prefix ps (chartsH s)) (dimsH s) s) qs
  = viewCharts s qs.
Proof.
  intros H. unfold viewCharts.
  induction H as [|q qs Hq _ IH]; [done|].
  cbn [mapM]. by rewrite IH, viewChart_unmarked.
Qed.

Lemma disjoint_swap (ps qs : list loc) :
  Forall (λ p, p ∉ qs) ps → Forall (λ q, q ∉ ps) qs.
Proof.
  rewrite !Forall_forall. intros H q Hq Hp. by apply (H q Hp).
Qed.

Lemma wellFormed_remove dbname s :
  wellFormed s → wellFormed (stateAfter (removeDatabaseCharts dbname) s).
Proof.
  intros (Htmpl & Hbase & Hv & Hdis).
  unfold stateAfter. rewrite (removeDatabaseCharts_run _ _ Hv).
  apply disjoint_swap in Hdis as Hdis'.
  apply Forall_app in Hdis' as [Ht Hb].
  split; [|split; [|split]].
  - unfold tmplIntact. by rewrite viewCharts_unmarked.
  - unfold baseIntact. by rewrite viewCharts_unmarked.
  - apply validCharts_insert; [apply length_markStore|done].
  - done.
Qed.

Lemma elem_of_take_in {A} (x : A) k l : x ∈ take k l → x ∈ l.
Proof.
  intros H. rewrite <- (take_drop k l). apply elem_of_app. by left.
Qed.

Lemma validCharts_elem s ps p :
  validCharts s ps → p ∈ ps → is_Some (chartsH s !! p).
Proof. unfold validCharts. rewrite Forall_forall. auto. Qed.

Lemma wellFormed_add dbname s :
  wellFormed s → wellFormed (stateAfter (addNewDatabaseCharts dbname) s).
Proof.
  intros (Htmpl & Hbase & Hv & Hdis).
  destruct (addNewDatabaseCharts_run dbname s Htmpl Hv)
    as (charts & s1 & Hrun & _ & Hview & _ & _ & _ & Hall).
  destruct (newDatabaseCharts_keeps_template_aux dbname s _ Htmpl)
    as (charts' & s1' & Hrun' & [moreC HC] & [moreD HD] & Hfresh).
  rewrite Hrun in Hrun'. injection Hrun' as <- <-.
  destruct (addPure_grows s1 charts (p_charts s)) as [k Hk].
  unfold stateAfter. rewrite Hall, Hk.
  set (ps := p_charts s ++ take k charts).
  assert (Hwf : wellFormed (withCharts ps s1)).
  { split; [exact (viewCharts_frame s (withCharts ps s1) _ _ _ _ HC HD Htmpl)|].
    split; [exact (viewCharts_frame s (withCharts ps s1) _ _ _ _ HC HD Hbase)|].
    split.
    - apply Forall_app.
      split; [exact (validCharts_frame s (withCharts ps s1) _ _ HC Hv)|].
      apply Forall_forall. intros p Hp.
      apply (validCharts_elem s1 charts);
        [exact (viewCharts_valid _ _ _ Hview)|exact (elem_of_take_in _ _ _ Hp)].
    - apply Forall_app. split; [exact Hdis|].
      apply Forall_forall. intros p Hp Hin.
      apply elem_of_take_in in Hp. specialize (Hfresh p Hp).
      apply elem_of_app in Hin as [Hin|Hin].
      + destruct (validCharts_elem s _ p (viewCharts_valid _ _ _ Htmpl) Hin)
          as [c Hc].
        congruence.
      + destruct (validCharts_elem s _ p (viewCharts_valid _ _ _ Hbase) Hin)
          as [c Hc].
        congruence. }
  destruct (addPure s1 (p_charts s) charts).1; exact Hwf.
Qed.

(** ** More on [removeDatabaseCharts] *)

Lemma prefix_cons a p b s :
  String.prefix (String a p) (String b s)
  = if ascii_dec a b then String.prefix p s else false.
Proof. reflexivity. Qed.

Lemma prefix_append_same a x y :
  String.prefix (a +:+ x) (a +:+ y) = String.prefix x y.
Proof.
  induction a as [|c a IH]; [reflexivity|].
  rewrite !append_cons, prefix_cons.
  destruct (ascii_dec c c); [exact IH|congruence].
Qed.

Lemma prefix_split p : ∀ s, String.prefix p s = true → ∃ r, s = p +:+ r.
Proof.
  induction p as [|a p IH]; intros s H.
  - by exists s.
  - destruct s as [|b s]; [discriminate H|].
    rewrite prefix_cons in H.
    destruct (ascii_dec a b) as [<-|]; [|discriminate H].
    destruct (IH _ H) as [r ->]. by exists r.
Qed.

Lemma markCell_idem prefix ps i c :
  markCell prefix ps i (markCell prefix ps i c) = markCell prefix ps i c.
Proof.
  unfold markCell. destruct (bool_decide (i ∈ ps)); cbn [andb]; [|reflexivity].
  destruct (HasPrefix (ID c) prefix) eqn:E; rewrite ?mark_ID, ?E; reflexivity.
Qed.

Lemma markCell_comm p1 p2 ps i c :
  markCell p2 ps i (markCell p1 ps i c) = markCell p1 ps i (markCell p2 ps i c).
Proof.
  unfold markCell. destruct (bool_decide (i ∈ ps)); cbn [andb]; [|reflexivity].
  destruct (HasPrefix (ID c) p1) eqn:E1, (HasPrefix (ID c) p2) eqn:E2;
    rewrite ?mark_ID, ?E1, ?E2; reflexivity.
Qed.

Lemma markStore_markStore p1 p2 ps h i :
  markStore p2 ps (markStore p1 ps h) !! i
  = (λ c, markCell p2 ps i (markCell p1 ps i c)) <$> h !! i.
Proof.
  rewrite !lookup_markStore. by destruct (h !! i).
Qed.

Lemma markStore_idem prefix ps h :
  markStore prefix ps (markStore prefix ps h) = markStore prefix ps h.
Proof.
  apply list_eq. intros i. rewrite markStore_markStore, lookup_markStore.
  destruct (h !! i) as [c|]; [|reflexivity]. cbn. by rewrite markCell_idem.
Qed.

Lemma markStore_comm p1 p2 ps h :
  markStore p2 ps (markStore p1 ps h) = markStore p1 ps (markStore p2 ps h).
Proof.
  apply list_eq. intros i. rewrite !markStore_markStore.
  destruct (h !! i) as [c|]; [|reflexivity]. cbn. by rewrite markCell_comm.
Qed.

Lemma validCharts_marked prefix s :
  validCharts s (p_charts s) →
  let s' := withStore (markStore prefix (p_charts s) (chartsH s)) (dimsH s) s in
  validCharts s' (p_charts s').
Proof.
  intros Hv. apply validCharts_insert; [apply length_markStore|exact Hv].
Qed.

(** X3: [removeDatabaseCharts] is idempotent: a second call for the
    same name finds every matching chart marked already and leaves the
    state as the first call left it. *)
Theorem removeDatabaseCharts_idempotent (dbname : string) (s : State) :
  validCharts s (p_charts s) →
  ∃ s',
    removeDatabaseCharts dbname s = Ok tt s' ∧
    removeDatabaseCharts dbname s' = Ok tt s'.
Proof.
  intros Hv. eexists. split; [exact (removeDatabaseCharts_run dbname s Hv)|].
  rewrite (removeDatabaseCharts_run dbname _ (validCharts_marked _ s Hv)).
  unfold withStore. cbn [chartsH dimsH p_charts p_log].
  by rewrite markStore_idem.
Qed.

(** X4: calls of [removeDatabaseCharts] for two names commute: the
    state after both does not depend on the order. *)
Theorem removeDatabaseCharts_commute (d1 d2 : string) (s : State) :
  validCharts s (p_charts s) →
  ∃ s1 s2 s12,
    removeDatabaseCharts d1 s = Ok tt s1 ∧
    removeDatabaseCharts d2 s1 = Ok tt s12 ∧
    removeDatabaseCharts d2 s = Ok tt s2 ∧
    removeDatabaseCharts d1 s2 = Ok tt s12.
Proof.
  intros Hv. eexists _, _, _.
  split; [exact (removeDatabaseCharts_run d1 s Hv)|].
  split; [exact (removeDatabaseCharts_run d2 _ (validCharts_marked _ s Hv))|].
  split; [exact (removeDatabaseCharts_run d2 s Hv)|].
  rewrite (removeDatabaseCharts_run d1 _ (validCharts_marked _ s Hv)).
  unfold withStore. cbn [chartsH dimsH p_charts p_log].
  by rewrite markStore_comm.
Qed.

Lemma markStore_no_match prefix s :
  Forall (λ p, HasPrefix (idAt s p) prefix = false) (p_charts s) →
  markStore prefix (p_charts s) (chartsH s) = chartsH s.
Proof.
  intros H. rewrite Forall_forall in H.
  apply list_eq. intros i. rewrite lookup_markStore.
  destruct (chartsH s !! i) as [c|] eqn:E; [|reflexivity]. cbn. f_equal.
  unfold markCell. destruct (decide (i ∈ p_charts s)) as [Hi|Hi].
  - specialize (H i Hi). rewrite (idAt_Some _ _ _ E) in H.
    by rewrite H, andb_false_r.
  - by rewrite bool_decide_eq_false_2.
Qed.

(** X5: when no registered chart has an ID with the prefix of the
    name (the database has no chart, or the collection is empty),
    [removeDatabaseCharts] changes nothing at all. *)
Theorem removeDatabaseCharts_no_match (dbname : string) (s : State) :
  validCharts s (p_charts s) →
  Forall (λ p, HasPrefix (idAt s p) ("db_" +:+ dbname +:+ "_") = false)
         (p_charts s) →
  removeDatabaseCharts dbname s = Ok tt s.
Proof.
  intros Hv Hno. rewrite (removeDatabaseCharts_run dbname s Hv).
  unfold withStore. rewrite (markStore_no_match _ s Hno). by destruct s.
Qed.

(** What [removeDatabaseCharts] leaves in each cell. *)
Lemma removeDatabaseCharts_cell dbname s :
  validCharts s (p_charts s) →
  ∃ s',
    removeDatabaseCharts dbname s = Ok tt s' ∧
    ∀ p c, chartsH s !! p = Some c →
      chartsH s' !! p
      = Some (markCell ("db_" +:+ dbname +:+ "_") (p_charts s) p c).
Proof.
  intros Hv. eexists. split; [exact (removeDatabaseCharts_run dbname s Hv)|].
  intros p c Hc. cbn [withStore chartsH]. by rewrite lookup_markStore, Hc.
Qed.

Lemma databaseChartIDs_shape d id :
  id ∈ databaseChartIDs d →
  ∃ r, id = "db_" +:+ d +:+ "_" +:+ r ∧ ("_" +:+ r) ∈ dbChartSuffixes.
Proof.
  rewrite databaseChartIDs_suffixes. intros H.
  apply list_elem_of_In, in_map_iff in H as (suf & <- & Hsuf).
  pose proof dbChartSuffixes_underscore as Hall.
  rewrite forallb_forall in Hall.
  destruct (prefix_underscore _ (Hall _ Hsuf)) as [r ->].
  exists r. split; [reflexivity|]. by apply list_elem_of_In.
Qed.

Lemma noUnderscore_cons c s :
  noUnderscore (String c s) = true → c ≠ "_"%char ∧ noUnderscore s = true.
Proof.
  cbn [noUnderscore]. intros H. apply andb_true_iff in H as [H1 H2].
  split; [|exact H2]. intros ->. by rewrite bool_decide_eq_true_2 in H1.
Qed.

Lemma prefix_plain_names d : ∀ d' r,
  noUnderscore d = true → noUnderscore d' = true →
  String.prefix (d +:+ "_") (d' +:+ "_" +:+ r) = true → d = d'.
Proof.
  induction d as [|a d IH]; intros [|b d'] r Hd Hd' H.
  - reflexivity.
  - apply noUnderscore_cons in Hd' as [Hb _].
    rewrite append_cons in H.
    change ("" +:+ "_") with (String "_" "") in H.
    rewrite prefix_cons in H.
    destruct (ascii_dec "_" b) as [<-|]; [congruence|discriminate H].
  - apply noUnderscore_cons in Hd as [Ha _].
    rewrite append_cons in H.
    change ("" +:+ "_" +:+ r) with (String "_" r) in H.
    rewrite prefix_cons in H.
    destruct (ascii_dec a "_") as [->|]; [congruence|discriminate H].
  - apply noUnderscore_cons in Hd as [_ Hd].
    apply noUnderscore_cons in Hd' as [_ Hd'].
    rewrite !append_cons, prefix_cons in H.
    destruct (ascii_dec a b) as [<-|]; [|discriminate H].
    f_equal. exact (IH _ _ Hd Hd' H).
Qed.

(** X6: names without [_] do not interfere: for two different such
    names, [removeDatabaseCharts] for the one leaves every chart
    generated for the other exactly as it is. *)
Theorem removeDatabaseCharts_spares_plain_names
    (dbname other : string) (s : State) :
  validCharts s (p_charts s) →
  noUnderscore dbname = true → noUnderscore other = true →
  dbname ≠ other →
  ∃ s',
    removeDatabaseCharts dbname s = Ok tt s' ∧
    ∀ p c, chartsH s !! p = Some c →
      ID c ∈ databaseChartIDs other → chartsH s' !! p = Some c.
Proof.
  intros Hv Hd Ho Hne.
  destruct (removeDatabaseCharts_cell dbname s Hv) as (s' & Hrun & Hcell).
  exists s'. split; [exact Hrun|].
  intros p c Hc Hid. rewrite (Hcell p c Hc). f_equal.
  unfold markCell.
  destruct (databaseChartIDs_shape _ _ Hid) as (r & -> & _).
  unfold HasPrefix. rewrite prefix_append_same.
  destruct (String.prefix (dbname +:+ "_") (other +:+ "_" +:+ r)) eqn:E.
  - destruct Hne. exact (prefix_plain_names _ _ _ Hd Ho E).
  - by rewrite andb_false_r.
Qed.

(** X7: the law behind the over-match: for every name [d] and every
    continuation [x], a registered chart generated for the name
    [d_x] is marked by [removeDatabaseCharts(d)]. *)
Theorem removeDatabaseCharts_marks_longer_names
    (dbname x : string) (s : State) :
  validCharts s (p_charts s) →
  ∃ s',
    removeDatabaseCharts dbname s = Ok tt s' ∧
    ∀ p c, p ∈ p_charts s → chartsH s !! p = Some c →
      ID c ∈ databaseChartIDs (dbname +:+ "_" +:+ x) →
      chartsH s' !! p = Some (set_created false (set_remove true c)).
Proof.
  intros Hv.
  destruct (removeDatabaseCharts_cell dbname s Hv) as (s' & Hrun & Hcell).
  exists s'. split; [exact Hrun|].
  intros p c Hp Hc Hid. rewrite (Hcell p c Hc). f_equal.
  unfold markCell.
  by rewrite bool_decide_eq_true_2, (databaseChartIDs_prefix_longer _ _ _ Hid).
Qed.

Lemma shadowedSuffixes_eq :
  shadowedSuffixes
  = [ ("_connections", "_connections_utilization");
      ("_conflicts", "_conflicts_stat");
      ("_temp_files", "_temp_files_data") ].
Proof. vm_compute. reflexivity. Qed.

Lemma shadowedSuffixes_inv a b :
  (a, b) ∈ shadowedSuffixes →
  b ∈ dbChartSuffixes ∧ ∃ r, b = (a +:+ "_") +:+ r.
Proof.
  unfold shadowedSuffixes. rewrite list_elem_of_filter. intros [Hpre Hin].
  apply list_elem_of_In, in_prod_iff in Hin as [_ Hb].
  split; [by apply list_elem_of_In|]. exact (prefix_split _ _ Hpre).
Qed.

(** X8: the over-match in the other direction: where a template
    suffix continues another one with [_] ([_temp_files] and
    [_temp_files_data], and two more), removing the database whose name
    is [d] followed by the shorter suffix marks the chart of database
    [d] with the longer suffix. *)
Theorem removeDatabaseCharts_marks_shorter_name
    (dbname short long : string) (s : State) :
  (short, long) ∈ shadowedSuffixes →
  validCharts s (p_charts s) →
  ("db_" +:+ dbname +:+ long) ∈ databaseChartIDs dbname ∧
  ∃ s',
    removeDatabaseCharts (dbname +:+ short) s = Ok tt s' ∧
    ∀ p c, p ∈ p_charts s → chartsH s !! p = Some c →
      ID c = "db_" +:+ dbname +:+ long →
      chartsH s' !! p = Some (set_created false (set_remove true c)).
Proof.
  intros Hsh Hv. apply shadowedSuffixes_inv in Hsh as [Hin [r ->]]. split.
  - rewrite databaseChartIDs_suffixes.
    apply list_elem_of_In, in_map_iff. exists ((short +:+ "_") +:+ r).
    split; [reflexivity|by apply list_elem_of_In].
  - destruct (removeDatabaseCharts_cell (dbname +:+ short) s Hv)
      as (s' & Hrun & Hcell).
    exists s'. split; [exact Hrun|].
    intros p c Hp Hc Hid. rewrite (Hcell p c Hc). f_equal.
    unfold markCell. rewrite bool_decide_eq_true_2 by exact Hp.
    rewrite Hid. unfold HasPrefix.
    replace ("db_" +:+ dbname +:+ (short +:+ "_") +:+ r)
      with (("db_" +:+ (dbname +:+ short) +:+ "_") +:+ r)
      by (by rewrite !append_assoc).
    by rewrite append_prefix.
Qed.

(** ** More on the generated IDs *)

Lemma append_eq_split a : ∀ b x y,
  a +:+ x = b +:+ y →
  ∃ t, (a = b +:+ t ∧ y = t +:+ x) ∨ (b = a +:+ t ∧ x = t +:+ y).
Proof.
  induction a as [|c a IH]; intros b x y H.
  - exists b. right. by split.
  - destruct b as [|c' b].
    + exists (String c a). left. by split.
    + rewrite !append_cons in H. injection H as <- H.
      destruct (IH _ _ _ H) as [t [[-> ->]|[-> ->]]]; exists t; [left|right];
        by rewrite append_cons.
Qed.

Lemma tails_self s : s ∈ tails s.
Proof. destruct s; apply list_elem_of_here. Qed.

Lemma tails_append t : ∀ x, x ∈ tails (t +:+ x).
Proof.
  induction t as [|c t IH]; intros x; [apply tails_self|].
  rewrite append_cons. cbn [tails]. apply list_elem_of_further, IH.
Qed.

Lemma suffixFree_spec l x y t :
  suffixFree l = true → x ∈ l → y ∈ l → y = t +:+ x → t = "".
Proof.
  unfold suffixFree. intros H Hx Hy ->.
  destruct t as [|c t]; [reflexivity|exfalso].
  rewrite forallb_forall in H.
  specialize (H _ (proj1 (list_elem_of_In _ _) Hy)).
  rewrite forallb_forall in H.
  specialize (H _ (proj1 (list_elem_of_In _ _) Hx)).
  rewrite append_cons in H. cbn [properTails] in H.
  rewrite bool_decide_eq_true_2 in H by apply tails_append.
  discriminate H.
Qed.

Lemma dbChartSuffixes_suffixFree : suffixFree dbChartSuffixes = true.
Proof. vm_compute. reflexivity. Qed.

(** An ID is generated for one name only. *)
Lemma databaseChartIDs_one_name d1 d2 id :
  id ∈ databaseChartIDs d1 → id ∈ databaseChartIDs d2 → d1 = d2.
Proof.
  rewrite !databaseChartIDs_suffixes. intros H1 H2.
  apply list_elem_of_In, in_map_iff in H1 as (suf1 & <- & Hs1).
  apply list_elem_of_In, in_map_iff in H2 as (suf2 & Heq & Hs2).
  apply append_inj_r in Heq.
  apply list_elem_of_In in Hs1, Hs2.
  destruct (append_eq_split _ _ _ _ Heq) as [t [[-> Ht]|[-> Ht]]].
  - rewrite (suffixFree_spec _ _ _ _ dbChartSuffixes_suffixFree Hs2 Hs1 Ht).
    clear. induction d1 as [|c d IH]; [reflexivity|].
    rewrite append_cons. by f_equal.
  - rewrite (suffixFree_spec _ _ _ _ dbChartSuffixes_suffixFree Hs1 Hs2 Ht).
    clear. induction d2 as [|c d IH]; [reflexivity|].
    rewrite append_cons. by f_equal.
Qed.

(** X9: the charts of different databases never collide: when every
    registered chart has the ID of a chart of [baseCharts] or an ID
    generated for one of the names [ds], no registered chart has an ID
    generated for a name that is not among [ds]. *)
Theorem other_databases_no_conflict
    (dbname : string) (ds : list string) (s : State) :
  dbname ∉ ds →
  Forall (λ p, idAt s p ∈ knownChartIDs ds) (p_charts s) →
  noConflict dbname s.
Proof.
  intros Hd Hknown. unfold noConflict.
  eapply Forall_impl; [exact Hknown|]. clear Hknown.
  intros p Hp Hid. unfold knownChartIDs in Hp.
  apply elem_of_app in Hp as [Hp|Hp].
  - apply databaseChartIDs_db in Hid.
    pose proof baseCharts_IDs_not_db as Hall. rewrite forallb_forall in Hall.
    apply list_elem_of_In, Hall in Hp. by rewrite Hid in Hp.
  - apply list_elem_of_In, in_flat_map in Hp as (d' & Hd' & Hp).
    apply list_elem_of_In in Hd', Hp.
    by rewrite (databaseChartIDs_one_name _ _ _ Hid Hp) in Hd.
Qed.

Lemma NoDup_baseCharts_dimIDs : NoDup (dimIDs baseChartsLits).
Proof. apply (bool_decide_unpack _). vm_compute. exact I. Qed.

Lemma baseCharts_dimIDs_not_db :
  forallb (λ id, negb (String.prefix "db_" id)) (dimIDs baseChartsLits) = true.
Proof. vm_compute. reflexivity. Qed.

(** X10: dimension IDs are unique too: the dimension IDs of the charts
    of [baseCharts] are pairwise distinct across all charts, and for
    every database name the 37 dimension IDs that [newDatabaseCharts]
    produces are pairwise distinct across the 14 charts and differ from
    every dimension ID of [baseCharts]. *)
Theorem dimension_IDs_unique (dbname : string) (s : State) :
  baseIntact s → tmplIntact s →
  ∃ charts s' rs bs,
    newDatabaseCharts dbname s = Ok charts s' ∧
    viewCharts s' charts = Some rs ∧
    viewCharts s' baseCharts = Some bs ∧
    length (dimIDs rs) = 37 ∧
    NoDup (dimIDs bs) ∧ NoDup (dimIDs rs) ∧
    ∀ id, id ∈ dimIDs rs → id ∉ dimIDs bs.
Proof.
  intros Hbase Htmpl.
  destruct (newDatabaseCharts_view dbname s _ Htmpl)
    as (charts & s' & Hrun & _ & [moreC HC] & [moreD HD] & _ & _ & Hview).
  rewrite stamp_instantiate_tmpl in Hview.
  pose proof (viewCharts_frame _ _ _ _ _ _ HC HD Hbase) as Hbase'.
  exists charts, s', (map (instantiate dbname) dbChartsTmplLits), baseChartsLits.
  split; [exact Hrun|]. split; [exact Hview|]. split; [exact Hbase'|].
  rewrite dimIDs_instantiate.
  rewrite (substPlaceholder_suffixes dbname "db_" _ _ tmpl_dim_cuts).
  split; [reflexivity|].
  split; [apply NoDup_baseCharts_dimIDs|].
  split.
  - apply (NoDup_fmap_2_strong (λ suf, "db_" +:+ dbname +:+ suf));
      [|apply NoDup_dbDimSuffixes].
    intros a b _ _ H. by apply append_inj_r, append_inj_r in H.
  - intros id Hid Hb.
    apply list_elem_of_In, in_map_iff in Hid as (suf & <- & _).
    pose proof baseCharts_dimIDs_not_db as Hall. rewrite forallb_forall in Hall.
    apply list_elem_of_In, Hall in Hb.
    by rewrite append_prefix in Hb.
Qed.

(** ** The invariant, with the run *)

(** X1: [addNewDatabaseCharts] keeps the state well formed: it returns
    normally, the package data still reads as initialised, the
    collection still holds pointers to charts that are no chart of the
    package data, the charts registered before are still registered, in
    order, and every cell that existed is unchanged. *)
Theorem addNewDatabaseCharts_keeps_wellFormed (dbname : string) (s : State) :
  wellFormed s →
  ∃ s',
    addNewDatabaseCharts dbname s = Ok tt s' ∧
    wellFormed s' ∧
    (∃ more, p_charts s' = p_charts s ++ more) ∧
    (∀ p c, chartsH s !! p = Some c → chartsH s' !! p = Some c) ∧
    (∀ q w, dimsH s !! q = Some w → dimsH s' !! q = Some w).
Proof.
  intros Hwf. pose proof (wellFormed_add dbname s Hwf) as Hwf'.
  destruct Hwf as (Htmpl & _ & Hv & _).
  destruct (addNewDatabaseCharts_run dbname s Htmpl Hv)
    as (charts & s1 & Hrun & _ & _ & _ & _ & _ & Hall).
  destruct (newDatabaseCharts_keeps_template_aux dbname s _ Htmpl)
    as (charts' & s1' & Hrun' & [moreC HC] & [moreD HD] & _).
  rewrite Hrun in Hrun'. injection Hrun' as <- <-.
  destruct (addPure_grows s1 charts (p_charts s)) as [k Hk].
  unfold stateAfter in Hwf'. rewrite Hall in Hwf'.
  eexists. split; [exact Hall|]. split; [exact Hwf'|].
  rewrite Hk.
  destruct (addPure s1 (p_charts s) charts).1;
    cbn [withLog withCharts p_charts chartsH dimsH];
    (split; [by eexists|]);
    (split; [intros p c Hc; rewrite HC; by apply lookup_app_l_Some|]);
    intros q w Hq; rewrite HD; by apply lookup_app_l_Some.
Qed.

(** X2: [removeDatabaseCharts] keeps the state well formed and never
    touches the package data: it returns normally and the charts of
    [dbChartsTmpl] and of [baseCharts] read after the call as they were
    initialised, whatever the name. *)
Theorem removeDatabaseCharts_keeps_wellFormed (dbname : string) (s : State) :
  wellFormed s →
  ∃ s',
    removeDatabaseCharts dbname s = Ok tt s' ∧
    wellFormed s' ∧
    viewCharts s' dbChartsTmpl = Some dbChartsTmplLits ∧
    viewCharts s' baseCharts = Some baseChartsLits.
Proof.
  intros Hwf. pose proof (wellFormed_remove dbname s Hwf) as Hwf'.
  destruct Hwf as (_ & _ & Hv & _).
  unfold stateAfter in Hwf'.
  rewrite (removeDatabaseCharts_run dbname s Hv) in Hwf'.
  eexists. split; [exact (removeDatabaseCharts_run dbname s Hv)|].
  split; [exact Hwf'|].
  destruct Hwf' as (Ht & Hb & _). split; [exact Ht|exact Hb].
Qed.

End Postgres.

(** ** The theorems at work

    The statements above, at the store right after package
    initialisation and at [registeredState], with [module.Priority] at
    70000. *)

Lemma newDatabaseCharts_instantiates_template_witness :
  tmplIntact 70000 (initState 70000) ∧
  ∃ charts s',
    newDatabaseCharts 70000 "postgres" (initState 70000) = Ok charts s' ∧
    length charts = 14 ∧
    viewCharts s' charts
    = Some (map (instantiate "postgres") (dbChartsTmplLits 70000)).
Proof.
  split; [vm_compute; reflexivity|].
  apply (newDatabaseCharts_instantiates_template 70000 "postgres").
  vm_compute; reflexivity.
Defined.

Lemma newDatabaseCharts_keeps_template_witness :
  viewCharts (initState 70000) (dbChartsTmpl 70000)
  = Some (dbChartsTmplLits 70000) ∧
  ∃ charts s',
    newDatabaseCharts 70000 "postgres" (initState 70000) = Ok charts s' ∧
    viewCharts s' (dbChartsTmpl 70000) = Some (dbChartsTmplLits 70000) ∧
    (∀ p c, chartsH (initState 70000) !! p = Some c → chartsH s' !! p = Some c) ∧
    (∀ q w, dimsH (initState 70000) !! q = Some w → dimsH s' !! q = Some w) ∧
    (∀ p, p ∈ charts →
       chartsH (initState 70000) !! p = None ∧ (p ∉ dbChartsTmpl 70000) ∧
       ∃ c, chartsH s' !! p = Some c ∧
            ∀ q, q ∈ Dims c → dimsH (initState 70000) !! q = None).
Proof.
  split; [vm_compute; reflexivity|].
  apply (newDatabaseCharts_keeps_template 70000 "postgres").
  vm_compute; reflexivity.
Defined.

Lemma newDatabaseCharts_keeps_other_fields_witness :
  viewCharts (initState 70000) (dbChartsTmpl 70000)
  = Some (dbChartsTmplLits 70000) ∧
  ∃ charts s' rs,
    newDatabaseCharts 70000 "postgres" (initState 70000) = Ok charts s' ∧
    viewCharts s' charts = Some rs ∧
    Forall2 sameChart rs (dbChartsTmplLits 70000).
Proof.
  split; [vm_compute; reflexivity|].
  apply (newDatabaseCharts_keeps_other_fields 70000 "postgres").
  vm_compute; reflexivity.
Defined.

Lemma tmpl_formats_single_directive_witness :
  tmplIntact 70000 (initState 70000) ∧
  Forall (singleDirective "100%") (tmplFormats 70000) ∧
  ∃ charts s' rs,
    newDatabaseCharts 70000 "100%" (initState 70000) = Ok charts s' ∧
    viewCharts s' charts = Some rs ∧
    Forall2 (substitutedIDs "100%") rs (dbChartsTmplLits 70000).
Proof.
  split; [vm_compute; reflexivity|].
  apply (tmpl_formats_single_directive 70000 "100%").
  vm_compute; reflexivity.
Defined.

Lemma chart_IDs_unique_witness :
  baseIntact 70000 (initState 70000) ∧ tmplIntact 70000 (initState 70000) ∧
  ∃ charts s',
    newDatabaseCharts 70000 "postgres" (initState 70000) = Ok charts s' ∧
    length (baseCharts 70000) = 18 ∧ length charts = 14 ∧
    NoDup (map (idAt s') (baseCharts 70000)) ∧
    NoDup (map (idAt s') charts) ∧
    ∀ id, id ∈ map (idAt s') charts → id ∉ map (idAt s') (baseCharts 70000).
Proof.
  split; [vm_compute; reflexivity|].
  split; [vm_compute; reflexivity|].
  apply (chart_IDs_unique 70000 "postgres"); vm_compute; reflexivity.
Defined.

Lemma removeDatabaseCharts_marks_prefixed_witness :
  let s := registeredState 70000 in
  validCharts s (p_charts s) ∧
  ∃ s',
    removeDatabaseCharts "postgres" s = Ok tt s' ∧
    p_charts s' = p_charts s ∧ dimsH s' = dimsH s ∧ p_log s' = p_log s ∧
    length (chartsH s') = length (chartsH s) ∧
    ∀ p c, chartsH s !! p = Some c →
      (p ∈ p_charts s → HasPrefix (ID c) ("db_" +:+ "postgres" +:+ "_") = true →
         chartsH s' !! p = Some (set_created false (set_remove true c))) ∧
      (HasPrefix (ID c) ("db_" +:+ "postgres" +:+ "_") = false →
         chartsH s' !! p = Some c) ∧
      (p ∉ p_charts s → chartsH s' !! p = Some c).
Proof.
  cbv zeta. split; [apply (bool_decide_unpack _); vm_compute; exact I|].
  apply (removeDatabaseCharts_marks_prefixed "postgres" (registeredState 70000)).
  apply (bool_decide_unpack _); vm_compute; exact I.
Defined.

Lemma addNewDatabaseCharts_registers_witness :
  let s := retiredState 70000 in
  tmplIntact 70000 s ∧ validCharts s (p_charts s) ∧
  checkID "postgres" = (-1)%Z ∧ noLiveConflict 70000 "postgres" s ∧
  length (p_charts s) = 14 ∧
  ∃ charts s1 s2,
    newDatabaseCharts 70000 "postgres" s = Ok charts s1 ∧
    Charts_Add charts s1 = Ok None s2 ∧
    addNewDatabaseCharts 70000 "postgres" s = Ok tt s2 ∧
    length charts = 14 ∧
    p_charts s2 = p_charts s ++ charts ∧
    viewCharts s2 charts
    = Some (map (instantiate "postgres") (dbChartsTmplLits 70000)) ∧
    p_log s2 = p_log s.
Proof.
  cbv zeta.
  assert (Htmpl : tmplIntact 70000 (retiredState 70000))
    by (vm_compute; reflexivity).
  assert (Hv : validCharts (retiredState 70000) (p_charts (retiredState 70000)))
    by (apply (bool_decide_unpack _); vm_compute; exact I).
  assert (Hd : checkID "postgres" = (-1)%Z) by (vm_compute; reflexivity).
  assert (Hno : noLiveConflict 70000 "postgres" (retiredState 70000))
    by (apply (bool_decide_unpack _); vm_compute; exact I).
  split; [exact Htmpl|]. split; [exact Hv|]. split; [exact Hd|].
  split; [exact Hno|]. split; [vm_compute; reflexivity|].
  destruct (addNewDatabaseCharts_registers 70000 "postgres"
              (retiredState 70000) Htmpl Hv)
    as (charts & s1 & err & s2 & Hnew & Hadd & Hrun & Hall).
  destruct (Hall Hd Hno) as (-> & Hlen & Hreg & Hview & Hlog).
  exists charts, s1, s2. repeat split; assumption.
Defined.

(** C5 with only the condition on the registered IDs fails: on the
    initialised package, whose collection is empty, no registered
    chart has an ID generated for [my db], yet [Charts.Add] refuses
    the first chart, whose ID has a space (rune 32), and
    [addNewDatabaseCharts] leaves the collection empty, with the
    warning in the log. *)
Lemma addNewDatabaseCharts_white_space_registers_none :
  let s := initState 70000 in
  tmplIntact 70000 s ∧ validCharts s (p_charts s) ∧
  noConflict 70000 "my db" s ∧
  ¬ registersAll 70000 "my db" s ∧
  p_charts (stateAfter (addNewDatabaseCharts 70000 "my db") s) = [] ∧
  p_log (stateAfter (addNewDatabaseCharts 70000 "my db") s)
  = [errAddingChart "db_my db_transactions" (errUnacceptableSymbol 32)].
Proof.
  cbv zeta. split; [vm_compute; reflexivity|].
  split; [apply (bool_decide_unpack _); vm_compute; exact I|].
  split; [apply (bool_decide_unpack _); vm_compute; exact I|].
  split; [|split; vm_compute; reflexivity].
  intros H. apply registersAll_b in H.
  vm_compute in H. discriminate H.
Qed.

Lemma add_then_remove_marks_registered_witness :
  let s := retiredState 70000 in
  tmplIntact 70000 s ∧ validCharts s (p_charts s) ∧
  checkID "postgres" = (-1)%Z ∧ noLiveConflict 70000 "postgres" s ∧
  marksAllInstantiated 70000 "postgres" s.
Proof.
  cbv zeta.
  assert (Htmpl : tmplIntact 70000 (retiredState 70000))
    by (vm_compute; reflexivity).
  assert (Hv : validCharts (retiredState 70000) (p_charts (retiredState 70000)))
    by (apply (bool_decide_unpack _); vm_compute; exact I).
  assert (Hd : checkID "postgres" = (-1)%Z) by (vm_compute; reflexivity).
  assert (Hno : noLiveConflict 70000 "postgres" (retiredState 70000))
    by (apply (bool_decide_unpack _); vm_compute; exact I).
  split; [exact Htmpl|]. split; [exact Hv|]. split; [exact Hd|].
  split; [exact Hno|].
  exact (add_then_remove_marks_registered 70000 "postgres"
           (retiredState 70000) Htmpl Hv Hd Hno).
Defined.

(** C3 without the conditions fails: when the charts of [postgres] are
    registered already and not marked for removal, a second
    [addNewDatabaseCharts("postgres")] instantiates 14 charts that
    [Charts.Add] refuses, and the [removeDatabaseCharts("postgres")]
    that follows marks the registered charts, not these. *)
Lemma add_twice_then_remove_leaves_unmarked :
  let s := registeredState 70000 in
  tmplIntact 70000 s ∧ validCharts s (p_charts s) ∧
  ¬ marksAllInstantiated 70000 "postgres" s.
Proof.
  cbv zeta. split; [vm_compute; reflexivity|].
  split; [apply (bool_decide_unpack _); vm_compute; exact I|].
  intros H. apply marksAllInstantiated_b in H.
  vm_compute in H. discriminate H.
Qed.

(** It fails as well for a name with white space, on the empty
    collection: none of the 14 charts instantiated for [my db] is
    registered, so [removeDatabaseCharts] marks none. *)
Lemma add_white_space_then_remove_leaves_unmarked :
  let s := initState 70000 in
  tmplIntact 70000 s ∧ validCharts s (p_charts s) ∧
  noConflict 70000 "my db" s ∧
  ¬ marksAllInstantiated 70000 "my db" s.
Proof.
  cbv zeta. split; [vm_compute; reflexivity|].
  split; [apply (bool_decide_unpack _); vm_compute; exact I|].
  split; [apply (bool_decide_unpack _); vm_compute; exact I|].
  intros H. apply marksAllInstantiated_b in H.
  vm_compute in H. discriminate H.
Qed.

(** ** The further theorems at work *)

Lemma addNewDatabaseCharts_keeps_wellFormed_witness :
  let s := registeredState 70000 in
  wellFormed 70000 s ∧
  ∃ s',
    addNewDatabaseCharts 70000 "template1" s = Ok tt s' ∧
    wellFormed 70000 s' ∧
    (∃ more, p_charts s' = p_charts s ++ more) ∧
    (∀ p c, chartsH s !! p = Some c → chartsH s' !! p = Some c) ∧
    (∀ q w, dimsH s !! q = Some w → dimsH s' !! q = Some w).
Proof.
  cbv zeta.
  assert (Hwf : wellFormed 70000 (registeredState 70000)).
  { split; [vm_compute; reflexivity|]. split; [vm_compute; reflexivity|].
    split; apply (bool_decide_unpack _); vm_compute; exact I. }
  split; [exact Hwf|].
  exact (addNewDatabaseCharts_keeps_wellFormed 70000 "template1" _ Hwf).
Defined.

Lemma removeDatabaseCharts_keeps_wellFormed_witness :
  let s := registeredState 70000 in
  wellFormed 70000 s ∧
  ∃ s',
    removeDatabaseCharts "%s" s = Ok tt s' ∧
    wellFormed 70000 s' ∧
    viewCharts s' (dbChartsTmpl 70000) = Some (dbChartsTmplLits 70000) ∧
    viewCharts s' (baseCharts 70000) = Some (baseChartsLits 70000).
Proof.
  cbv zeta.
  assert (Hwf : wellFormed 70000 (registeredState 70000)).
  { split; [vm_compute; reflexivity|]. split; [vm_compute; reflexivity|].
    split; apply (bool_decide_unpack _); vm_compute; exact I. }
  split; [exact Hwf|].
  exact (removeDatabaseCharts_keeps_wellFormed 70000 "%s" _ Hwf).
Defined.

Lemma removeDatabaseCharts_idempotent_witness :
  let s := registeredState 70000 in
  validCharts s (p_charts s) ∧
  ∃ s',
    removeDatabaseCharts "postgres" s = Ok tt s' ∧
    removeDatabaseCharts "postgres" s' = Ok tt s'.
Proof.
  cbv zeta. split; [apply (bool_decide_unpack _); vm_compute; exact I|].
  apply (removeDatabaseCharts_idempotent "postgres" (registeredState 70000)).
  apply (bool_decide_unpack _); vm_compute; exact I.
Defined.

Lemma removeDatabaseCharts_commute_witness :
  let s := registeredStateFor 70000 ["app"; "app_x"] in
  validCharts s (p_charts s) ∧
  ∃ s1 s2 s12,
    removeDatabaseCharts "app" s = Ok tt s1 ∧
    removeDatabaseCharts "app_x" s1 = Ok tt s12 ∧
    removeDatabaseCharts "app_x" s = Ok tt s2 ∧
    removeDatabaseCharts "app" s2 = Ok tt s12.
Proof.
  cbv zeta. split; [apply (bool_decide_unpack _); vm_compute; exact I|].
  apply (removeDatabaseCharts_commute "app" "app_x").
  apply (bool_decide_unpack _); vm_compute; exact I.
Defined.

Lemma removeDatabaseCharts_no_match_witness :
  let s := registeredState 70000 in
  validCharts s (p_charts s) ∧
  Forall (λ p, HasPrefix (idAt s p) ("db_" +:+ "template1" +:+ "_") = false)
         (p_charts s) ∧
  removeDatabaseCharts "template1" s = Ok tt s.
Proof.
  cbv zeta. split; [apply (bool_decide_unpack _); vm_compute; exact I|].
  split; [apply (bool_decide_unpack _); vm_compute; exact I|].
  apply (removeDatabaseCharts_no_match "template1" (registeredState 70000));
    apply (bool_decide_unpack _); vm_compute; exact I.
Defined.

Lemma removeDatabaseCharts_spares_plain_names_witness :
  let s := registeredState 70000 in
  validCharts s (p_charts s) ∧
  noUnderscore "template1" = true ∧ noUnderscore "postgres" = true ∧
  "template1" ≠ "postgres" ∧
  ∃ s',
    removeDatabaseCharts "template1" s = Ok tt s' ∧
    ∀ p c, chartsH s !! p = Some c →
      ID c ∈ databaseChartIDs 70000 "postgres" → chartsH s' !! p = Some c.
Proof.
  cbv zeta. split; [apply (bool_decide_unpack _); vm_compute; exact I|].
  split; [reflexivity|]. split; [reflexivity|].
  split; [apply (bool_decide_unpack _); vm_compute; exact I|].
  apply (removeDatabaseCharts_spares_plain_names 70000 "template1" "postgres").
  - apply (bool_decide_unpack _); vm_compute; exact I.
  - reflexivity.
  - reflexivity.
  - apply (bool_decide_unpack _); vm_compute; exact I.
Defined.

Lemma removeDatabaseCharts_marks_longer_names_witness :
  let s := registeredStateFor 70000 ["app"; "app_x"] in
  validCharts s (p_charts s) ∧
  ∃ s',
    removeDatabaseCharts "app" s = Ok tt s' ∧
    ∀ p c, p ∈ p_charts s → chartsH s !! p = Some c →
      ID c ∈ databaseChartIDs 70000 ("app" +:+ "_" +:+ "x") →
      chartsH s' !! p = Some (set_created false (set_remove true c)).
Proof.
  cbv zeta. split; [apply (bool_decide_unpack _); vm_compute; exact I|].
  apply (removeDatabaseCharts_marks_longer_names 70000 "app" "x").
  apply (bool_decide_unpack _); vm_compute; exact I.
Defined.

Lemma removeDatabaseCharts_marks_shorter_name_witness :
  let s := registeredStateFor 70000 ["app"; "app_temp_files"] in
  ("_temp_files", "_temp_files_data") ∈ shadowedSuffixes 70000 ∧
  validCharts s (p_charts s) ∧
  ("db_" +:+ "app" +:+ "_temp_files_data") ∈ databaseChartIDs 70000 "app" ∧
  ∃ s',
    removeDatabaseCharts ("app" +:+ "_temp_files") s = Ok tt s' ∧
    ∀ p c, p ∈ p_charts s → chartsH s !! p = Some c →
      ID c = "db_" +:+ "app" +:+ "_temp_files_data" →
      chartsH s' !! p = Some (set_created false (set_remove true c)).
Proof.
  cbv zeta. split; [apply (bool_decide_unpack _); vm_compute; exact I|].
  split; [apply (bool_decide_unpack _); vm_compute; exact I|].
  apply (removeDatabaseCharts_marks_shorter_name 70000
           "app" "_temp_files" "_temp_files_data");
    apply (bool_decide_unpack _); vm_compute; exact I.
Defined.

Lemma other_databases_no_conflict_witness :
  let s := registeredStateFor 70000 ["postgres"; "app"] in
  ("template1" ∉ ["postgres"; "app"]) ∧
  Forall (λ p, idAt s p ∈ knownChartIDs 70000 ["postgres"; "app"]) (p_charts s) ∧
  noConflict 70000 "template1" s.
Proof.
  cbv zeta. split; [apply (bool_decide_unpack _); vm_compute; exact I|].
  split; [apply (bool_decide_unpack _); vm_compute; exact I|].
  apply (other_databases_no_conflict 70000 "template1" ["postgres"; "app"]);
    apply (bool_decide_unpack _); vm_compute; exact I.
Defined.

Lemma dimension_IDs_unique_witness :
  baseIntact 70000 (initState 70000) ∧ tmplIntact 70000 (initState 70000) ∧
  ∃ charts s' rs bs,
    newDatabaseCharts 70000 "postgres" (initState 70000) = Ok charts s' ∧
    viewCharts s' charts = Some rs ∧
    viewCharts s' (baseCharts 70000) = Some bs ∧
    length (dimIDs rs) = 37 ∧
    NoDup (dimIDs bs) ∧ NoDup (dimIDs rs) ∧
    ∀ id, id ∈ dimIDs rs → id ∉ dimIDs bs.
Proof.
  split; [vm_compute; reflexivity|].
  split; [vm_compute; reflexivity|].
  apply (dimension_IDs_unique 70000 "postgres"); vm_compute; reflexivity.
Defined.
